(** * bear: from execution traces to a compilation database

    A shallow embedding of [analyzer/bear.py]: the trace-file parser, the
    compiler filter, the entry formatter, [collect] and the part of [main]
    that runs the collection and writes the database.

    Python [str] values are modelled by [string]; exceptions by an error
    monad; the file system, the directory listing, the working directory,
    the build and the external command classifier are section variables. *)

From Stdlib Require Import Strings.String Strings.Ascii Lists.List Bool.Bool
  Arith.PeanoNat ZArith.ZArith micromega.Lia.
Import ListNotations.

Open Scope string_scope.
Open Scope list_scope.

(** ** Exceptions and the error monad *)

(** The exceptions the modelled code can raise.  [IndexError] comes from
    list indexing, [EnvironmentError] from [open]/[read] and from starting
    the build, [ExternalError] from the command classifier. *)
Inductive exn : Type :=
| IndexError
| EnvironmentError (msg : string)
| ExternalError (msg : string).

Inductive result (A : Type) : Type :=
| Return (a : A)
| Raise (e : exn).

Arguments Return {A} a.
Arguments Raise {A} e.

Definition bind {A B : Type} (m : result A) (k : A -> result B) : result B :=
  match m with
  | Return a => k a
  | Raise e => Raise e
  end.

Notation "x <- m ;; k" := (bind m (fun x => k))
  (at level 61, m at next level, right associativity).

(** A list comprehension whose body may raise: elements are evaluated left
    to right and the first exception aborts the whole comprehension. *)
Fixpoint mapM {A B : Type} (f : A -> result B) (l : list A) : result (list B) :=
  match l with
  | [] => Return []
  | a :: l' => b <- f a ;; bs <- mapM f l' ;; Return (b :: bs)
  end.

(** A chain of generators consumed by [list(...)]: each element is pulled
    through the whole chain before the next one is looked at, so the
    outputs are concatenated in order and the first exception aborts. *)
Fixpoint flatMapM {A B : Type} (f : A -> result (list B)) (l : list A)
  : result (list B) :=
  match l with
  | [] => Return []
  | a :: l' => bs <- f a ;; rest <- flatMapM f l' ;; Return (bs ++ rest)
  end.

(** [str(exception)] as printed by [main]. *)
Definition str_exn (e : exn) : string :=
  match e with
  | IndexError => "list index out of range"
  | EnvironmentError msg => msg
  | ExternalError msg => msg
  end.

(** ** Python string operations *)

Module Py.

(** [s.split(sep)] for a one-character separator: never empty, keeps
    empty fields. *)
Fixpoint split (sep : ascii) (s : string) : list string :=
  match s with
  | EmptyString => [EmptyString]
  | String a s' =>
      if Ascii.eqb a sep then EmptyString :: split sep s'
      else match split sep s' with
           | [] => [String a EmptyString]
           | w :: ws => String a w :: ws
           end
  end.

(** [sep.join(l)]. *)
Definition join (sep : string) (l : list string) : string :=
  String.concat sep l.

(** [l[:-1]]. *)
Definition drop_last {A : Type} (l : list A) : list A := removelast l.

(** [l[1:]]. *)
Definition from_second {A : Type} (l : list A) : list A := tl l.

(** [s.startswith(p)]. *)
Definition startswith (s p : string) : bool := String.prefix p s.

(** [s.endswith("/")]-style test for a one-character suffix. *)
Fixpoint endswith_char (s : string) (c : ascii) : bool :=
  match s with
  | EmptyString => false
  | String a EmptyString => Ascii.eqb a c
  | String _ s' => endswith_char s' c
  end.

(** [c * n] for a one-character string. *)
Fixpoint repeat_char (c : ascii) (n : nat) : string :=
  match n with
  | O => EmptyString
  | S n' => String c (repeat_char c n')
  end.

(** No character of [s] is [c]. *)
Fixpoint free_of (c : ascii) (s : string) : bool :=
  match s with
  | EmptyString => true
  | String a s' => negb (Ascii.eqb a c) && free_of c s'
  end.

End Py.

(** ** Regular expressions ([re.compile] / [pattern.match]) *)

Module Re.

(** The fragment of Python's regular expressions the two pattern tables
    use. *)
Inductive regex : Type :=
| Eps
| Chr (c : ascii)            (* a literal character *)
| Dot                        (* [.]: any character but a newline *)
| NotChr (c : ascii)         (* [[^c]] *)
| OneOf (cs : list ascii)    (* [[abc]] and ranges, listed *)
| Cat (r1 r2 : regex)
| Alt (r1 r2 : regex)
| Star (r : regex)
| Opt (r : regex)            (* [r?] *)
| Empty.                     (* matches nothing; only produced by [deriv] *)

Definition newline : ascii := ascii_of_nat 10.

Fixpoint nullable (r : regex) : bool :=
  match r with
  | Eps => true
  | Chr _ | Dot | NotChr _ | OneOf _ | Empty => false
  | Cat r1 r2 => nullable r1 && nullable r2
  | Alt r1 r2 => nullable r1 || nullable r2
  | Star _ => true
  | Opt _ => true
  end.

Definition of_bool (b : bool) : regex := if b then Eps else Empty.

(** Brzozowski derivative. *)
Fixpoint deriv (a : ascii) (r : regex) : regex :=
  match r with
  | Eps | Empty => Empty
  | Chr c => of_bool (Ascii.eqb a c)
  | Dot => of_bool (negb (Ascii.eqb a newline))
  | NotChr c => of_bool (negb (Ascii.eqb a c))
  | OneOf cs => of_bool (existsb (Ascii.eqb a) cs)
  | Cat r1 r2 =>
      if nullable r1 then Alt (Cat (deriv a r1) r2) (deriv a r2)
      else Cat (deriv a r1) r2
  | Alt r1 r2 => Alt (deriv a r1) (deriv a r2)
  | Star r1 => Cat (deriv a r1) (Star r1)
  | Opt r1 => deriv a r1
  end.

(** The whole of [s] is in the language of [r]. *)
Fixpoint fullmatch (r : regex) (s : string) : bool :=
  match s with
  | EmptyString => nullable r
  | String a s' => fullmatch (deriv a r) s'
  end.

(** The language of a regular expression, to check the matcher against. *)
Inductive lang : regex -> string -> Prop :=
| lang_eps : lang Eps ""
| lang_chr (c : ascii) : lang (Chr c) (String c "")
| lang_dot (a : ascii) : a <> newline -> lang Dot (String a "")
| lang_notchr (c a : ascii) : a <> c -> lang (NotChr c) (String a "")
| lang_oneof (cs : list ascii) (a : ascii) :
    In a cs -> lang (OneOf cs) (String a "")
| lang_cat (r1 r2 : regex) (s1 s2 : string) :
    lang r1 s1 -> lang r2 s2 -> lang (Cat r1 r2) (s1 ++ s2)
| lang_alt_l (r1 r2 : regex) (s : string) : lang r1 s -> lang (Alt r1 r2) s
| lang_alt_r (r1 r2 : regex) (s : string) : lang r2 s -> lang (Alt r1 r2) s
| lang_star_nil (r : regex) : lang (Star r) ""
| lang_star_cons (r : regex) (a : ascii) (s1 s2 : string) :
    lang r (String a s1) -> lang (Star r) s2 ->
    lang (Star r) (String a s1 ++ s2)
| lang_opt_nil (r : regex) : lang (Opt r) ""
| lang_opt_some (r : regex) (s : string) : lang r s -> lang (Opt r) s.

(** A literal word. *)
Fixpoint lit (s : string) : regex :=
  match s with
  | EmptyString => Eps
  | String a s' => Cat (Chr a) (lit s')
  end.

(** A final [$] (no MULTILINE flag) matches at the end of the string and
    also just before a newline that ends the string. *)
Definition dollar : regex := Opt (Chr newline).

(** A compiled pattern [^body$]. *)
Record pattern : Type := Anchored { body : regex }.

(** [pattern.match(s)] as a truth value: [match] anchors at the start,
    the [^] is redundant, and the final [$] closes the match. *)
Definition match_ (p : pattern) (s : string) : bool :=
  fullmatch (Cat (body p) dollar) s.

End Re.

(** ** [os.path] (POSIX flavour) *)

Module OsPath.

Definition sep : ascii := "/"%char.

Definition isabs (s : string) : bool := Py.startswith s "/".

(** [os.path.join(a, b)] for two arguments. *)
Definition join (a b : string) : string :=
  if Py.startswith b "/" then b
  else if (a =? "")%string || Py.endswith_char a sep then (a ++ b)%string
  else (a ++ "/" ++ b)%string.

(** The number of leading slashes [normpath] keeps: POSIX allows one or
    two and treats three or more as one. *)
Definition initial_slashes (path : string) : nat :=
  if Py.startswith path "/" then
    if Py.startswith path "//" && negb (Py.startswith path "///") then 2
    else 1
  else 0.

(** One turn of the loop over the components of the path; [new_comps]
    grows and shrinks at its end. *)
Definition normpath_step (slashes : nat) (new_comps : list string)
  (comp : string) : list string :=
  if (comp =? "")%string || (comp =? ".")%string then new_comps
  else if negb (comp =? "..")%string
          || (Nat.eqb slashes 0 && Nat.eqb (length new_comps) 0)
          || (negb (Nat.eqb (length new_comps) 0)
              && (last new_comps "" =? "..")%string)
       then new_comps ++ [comp]
       else if negb (Nat.eqb (length new_comps) 0)
            then removelast new_comps
            else new_comps.

Definition normpath (path : string) : string :=
  if (path =? "")%string then "."
  else
    let slashes := initial_slashes path in
    let comps := Py.split sep path in
    let new_comps := fold_left (normpath_step slashes) comps [] in
    let path' :=
      (Py.repeat_char sep slashes ++ Py.join "/" new_comps)%string in
    if (path' =? "")%string then "." else path'.

(** [os.path.abspath(path)], with the current working directory of the
    running process made explicit. *)
Definition abspath (cwd path : string) : string :=
  normpath (if isabs path then path else join cwd path).

End OsPath.

(** ** Data *)

(** What [parse] builds from one trace file. *)
Module TraceRecord.
Record t : Type := Build
  { pid : string;
    ppid : string;
    function : string;
    directory : string;
    command : list string }.
End TraceRecord.

(** One entry of the compilation database. *)
Module Entry.
Record t : Type := Build
  { directory : string;
    command : string;
    file : string }.
End Entry.

(** Modelled from the spec: the action tag of the external command
    classifier ([analyzer.command.Action], not part of the sources at
    hand): a tag from Compile, Link, Other. *)
Inductive Action : Type := Compile | Link | Other.

Definition Action_eqb (a b : Action) : bool :=
  match a, b with
  | Compile, Compile | Link, Link | Other, Other => true
  | _, _ => false
  end.

(** Modelled from the spec: the part of the classifier's answer that
    [format_record] reads, its ['action'] and its ['files'] (the
    source-file operands). *)
Record Atoms : Type := { action : Action; files : list string }.

(** What [collect] returns: the parsed records when filtering is off, the
    database entries when it is on. *)
Inductive collected : Type :=
| Records (rs : list TraceRecord.t)
| Entries (es : list Entry.t).

Definition collected_length (c : collected) : nat :=
  match c with
  | Records rs => length rs
  | Entries es => length es
  end.

(** The command line as [argparse] hands it over. *)
Record Args : Type :=
  { output : string;           (* [-o] *)
    filtering : bool;          (* [-n/--disable-filter], [dest='filtering'] *)
    build : list string }.

(** What [main] can change: the lines printed and the files written. *)
Record World : Type :=
  { stdout : list string;
    written : list (string * collected) }.

Definition RS : ascii := ascii_of_nat 30.   (* chr(0x1e) *)
Definition US : ascii := ascii_of_nat 31.   (* chr(0x1f) *)

(** ** The pattern tables *)

(** [([^/]*/)*], the directory part every compiler pattern starts with. *)
Definition dirs : Re.regex :=
  Re.Star (Re.Cat (Re.Star (Re.NotChr "/")) (Re.Chr "/")).

(** [(cc|\+\+)]. *)
Definition cc_or_pp : Re.regex := Re.Alt (Re.lit "cc") (Re.lit "++").

Definition digits (lo n : nat) : list ascii :=
  map (fun i => ascii_of_nat (48 + i)) (seq lo n).

(** [(-[ab].[0-9])?] with the first digit among [n] digits from [lo]. *)
Definition version (lo n : nat) : Re.regex :=
  Re.Opt (Re.Cat (Re.Chr "-")
            (Re.Cat (Re.OneOf (digits lo n))
               (Re.Cat Re.Dot (Re.OneOf (digits 0 10))))).

Definition compiler_patterns : list Re.pattern :=
  [ (* ^([^/]*/)*c(c|\+\+)$ *)
    Re.Anchored (Re.Cat dirs (Re.Cat (Re.Chr "c")
                   (Re.Alt (Re.Chr "c") (Re.lit "++"))));
    (* ^([^/]*/)*([^-]*-)*g(cc|\+\+)(-[34].[0-9])?$ *)
    Re.Anchored (Re.Cat dirs
                   (Re.Cat (Re.Star (Re.Cat (Re.Star (Re.NotChr "-"))
                                       (Re.Chr "-")))
                      (Re.Cat (Re.Chr "g") (Re.Cat cc_or_pp (version 3 2)))));
    (* ^([^/]*/)*clang(\+\+)?(-[23].[0-9])?$ *)
    Re.Anchored (Re.Cat dirs
                   (Re.Cat (Re.lit "clang")
                      (Re.Cat (Re.Opt (Re.lit "++")) (version 2 2))));
    (* ^([^/]*/)*llvm-g(cc|\+\+)$ *)
    Re.Anchored (Re.Cat dirs (Re.Cat (Re.lit "llvm-g") cc_or_pp)) ].

Definition cancel_patterns : list Re.pattern :=
  [ (* ^-cc1$ *) Re.Anchored (Re.lit "-cc1") ].

(** ** The program *)

Section Bear.

(** [open(filename, 'r')] followed by [read()]: the text of the file, or
    the exception raised when it cannot be read. *)
Variable open_read : string -> result string.

(** [glob.iglob(pattern)]: the matching paths in discovery order. *)
Variable iglob : string -> list string.

(** [os.getcwd()] of the collecting process. *)
Variable getcwd : string.

(** [commands.parse({'command': command}, lambda x: x)], the external
    classifier. *)
Variable commands_parse : list string -> result Atoms.

(** [run_build(command, destination)]: the exit code of the build; its
    effect on the scratch directory is what [iglob] and [open_read]
    show afterwards. *)
Variable run_build : list string -> string -> result Z.

(** The name [TemporaryDirectory(prefix='bear-')] picks. *)
Variable tmpdir : string.

(** [open(args.output, 'w+')]. *)
Variable open_write : string -> result unit.

(** [records[i]]. *)
Definition index {A : Type} (l : list A) (i : nat) : result A :=
  match nth_error l i with
  | Some a => Return a
  | None => Raise IndexError
  end.

(** Parse the file generated by the 'libear' preloaded library. *)
Definition parse (filename : string) : result TraceRecord.t :=
  content <- open_read filename ;;
  let records := Py.split RS content in
  r0 <- index records 0 ;;
  r1 <- index records 1 ;;
  r2 <- index records 2 ;;
  r3 <- index records 3 ;;
  r4 <- index records 4 ;;
  Return (TraceRecord.Build r0 r1 r2 r3 (Py.drop_last (Py.split US r4))).

Definition known_compiler (command : list string) : result bool :=
  executable <- index command 0 ;;
  Return (existsb (fun pattern => Re.match_ pattern executable)
            compiler_patterns).

Definition cancel_parameter (command : list string) : bool :=
  existsb (fun pattern =>
             existsb (fun arg => Re.match_ pattern arg)
               (Py.from_second command))
    cancel_patterns.

(** The test of [general_filter]:
    [known_compiler(command) and not cancel_parameter(command)]. *)
Definition is_compiler_call (command : list string) : result bool :=
  known <- known_compiler command ;;
  Return (known && negb (cancel_parameter command)).

(** Filter out the non compiler invocations: what the generator yields
    for one record. *)
Definition general_filter (record : TraceRecord.t)
  : result (list TraceRecord.t) :=
  keep <- is_compiler_call (TraceRecord.command record) ;;
  Return (if keep then [record] else []).

(** Create a single string from list. *)
Definition join_command (args : list string) : string := Py.join " " args.

(** Generate the desired fields for compilation database entries: what
    the generator yields for one record. *)
Definition format_record (record : TraceRecord.t) : result (list Entry.t) :=
  atoms <- commands_parse (TraceRecord.command record) ;;
  Return (if Action_eqb (action atoms) Compile
          then map (fun filename =>
                      Entry.Build (TraceRecord.directory record)
                        (join_command (TraceRecord.command record))
                        (OsPath.abspath getcwd filename))
                 (files atoms)
          else []).

(** [chain = lambda x: format_record(general_filter(x))], consumed by
    [list]. *)
Definition chain (records : list TraceRecord.t) : result (list Entry.t) :=
  flatMapM (fun record =>
              kept <- general_filter record ;;
              flatMapM format_record kept)
    records.

(** The trace files of a scratch directory. *)
Definition trace_files (destination : string) : list string :=
  iglob (OsPath.join destination "cmd.*").

(** Collect the execution information from the output directory. *)
Definition collect (filtering : bool) (destination : string)
  : result collected :=
  generator <- mapM parse (trace_files destination) ;;
  if filtering
  then es <- chain generator ;; Return (Entries es)
  else Return (Records generator).

(** The body of [main] after the command line is parsed: run the build,
    collect, write the database; any exception is printed and turned
    into exit code 127. *)
Definition main (args : Args) (w : World) : Z * World :=
  match (exit_code <- run_build (build args) tmpdir ;;
         commands <- collect (negb (filtering args)) tmpdir ;;
         _ <- open_write (output args) ;;
         Return (exit_code, commands)) with
  | Return (exit_code, commands) =>
      (exit_code,
       {| stdout := stdout w;
          written := written w ++ [(output args, commands)] |})
  | Raise exception =>
      (127%Z,
       {| stdout := stdout w ++ [str_exn exception];
          written := written w |})
  end.

End Bear.

(** ** A concrete run

    A stand-in classifier and a small scratch directory, to evaluate the
    program on. *)

Module Example.

(** [s.endswith(p)]. *)
Fixpoint endswith (s p : string) : bool :=
  (s =? p)%string
  || match s with
     | EmptyString => false
     | String _ s' => endswith s' p
     end.

(** A stand-in for the external classifier: an invocation with [-c] is
    a compilation, and its source files are the operands ending in
    [.c]. *)
Definition classify (command : list string) : result Atoms :=
  Return {| action := if existsb (String.eqb "-c") (tl command)
                      then Compile else Link;
            files := filter (fun a => endswith a ".c") (tl command) |}.

(** The text of a trace file: five fields closed by the record
    separator, the arguments each closed by the unit separator. *)
Definition trace (pid ppid fn cwd : string) (args : list string) : string :=
  Py.join (String RS "")
    [pid; ppid; fn; cwd;
     String.concat "" (map (fun a => (a ++ String US "")%string) args)].

Definition scratch : string := "/tmp/bear-x".

(** One compilation of two operands naming the same file, started in a
    directory recorded as a relative path. *)
Definition files_one : list (string * string) :=
  [ ("/tmp/bear-x/cmd.1",
     trace "100" "1" "execve" "build" ["cc"; "-c"; "foo.c"; "./foo.c"]) ].

(** Scenario A of the specification. *)
Definition files_two : list (string * string) :=
  [ ("/tmp/bear-x/cmd.1",
     trace "100" "1" "execve" "/home/u"
       ["/usr/bin/cc"; "-c"; "foo.c"; "-o"; "foo.o"]);
    ("/tmp/bear-x/cmd.2",
     trace "101" "1" "execve" "/home/u" ["/bin/ls"; "-la"]) ].

(** A process started with an empty argument vector. *)
Definition files_noargs : list (string * string) :=
  [ ("/tmp/bear-x/cmd.1", trace "100" "1" "execve" "/home/u" []) ].

(** A trace whose last argument lacks its terminator. *)
Definition unterminated : string :=
  Py.join (String RS "")
    ["100"; "1"; "execve"; "/home/u";
     Py.join (String US "") ["cc"; "-c"; "foo.c"]].

Definition files_unterminated : list (string * string) :=
  [ ("/tmp/bear-x/cmd.1", unterminated) ].

(** The record [parse] builds from the trace of [files_one]. *)
Definition record_one : TraceRecord.t :=
  TraceRecord.Build "100" "1" "execve" "build"
    ["cc"; "-c"; "foo.c"; "./foo.c"].

(** The record of the compilation of scenario A. *)
Definition record_two : TraceRecord.t :=
  TraceRecord.Build "100" "1" "execve" "/home/u"
    ["/usr/bin/cc"; "-c"; "foo.c"; "-o"; "foo.o"].

(** Two compilations started in two different directories. *)
Definition files_dirs : list (string * string) :=
  [ ("/tmp/bear-x/cmd.1",
     trace "100" "1" "execve" "/home/u/a" ["cc"; "-c"; "a.c"]);
    ("/tmp/bear-x/cmd.2",
     trace "101" "1" "execve" "/home/u/b" ["cc"; "-c"; "b.c"]) ].

Fixpoint lookup (fs : list (string * string)) (name : string)
  : result string :=
  match fs with
  | [] => Raise (EnvironmentError "No such file or directory")
  | (n, c) :: fs' => if (n =? name)%string then Return c else lookup fs' name
  end.

(** The listing of the scratch directory. *)
Definition listing (fs : list (string * string)) (pattern : string)
  : list string :=
  if (pattern =? "/tmp/bear-x/cmd.*")%string then map fst fs else [].

Definition cwd : string := "/home/u".

Definition collect (fs : list (string * string)) (filtering : bool)
  : result collected :=
  collect (lookup fs) (listing fs) cwd classify filtering scratch.

Definition main (fs : list (string * string)) (args : Args) (w : World)
  : Z * World :=
  main (lookup fs) (listing fs) cwd classify
    (fun _ _ => Return 0%Z) scratch (fun _ => Return tt) args w.

End Example.

(** ** The environment of the build ([run_build])

    A Python [dict] with string keys, in insertion order; [None] is a
    possible value. *)

Module Dict.

Definition t : Type := list (string * option string).

(** [d[key]], when the key is there. *)
Fixpoint get (d : t) (key : string) : option (option string) :=
  match d with
  | [] => None
  | (k, v) :: d' => if (k =? key)%string then Some v else get d' key
  end.

(** [d.update({key: value})]: an existing key keeps its place and takes
    the new value, a new key goes to the end. *)
Fixpoint update (d : t) (key : string) (value : option string) : t :=
  match d with
  | [] => [(key, value)]
  | (k, v) :: d' =>
      if (k =? key)%string then (k, value) :: d'
      else (k, v) :: update d' key value
  end.

End Dict.

(** [sys.platform], as far as the module looks at it. *)
Inductive platform : Type := Darwin | NotDarwin.

Definition ENVIRONMENTS (p : platform) : list (string * string) :=
  match p with
  | Darwin => [("ENV_OUTPUT", "BEAR_OUTPUT");
               ("ENV_PRELOAD", "DYLD_INSERT_LIBRARIES");
               ("ENV_FLAT", "DYLD_FORCE_FLAT_NAMESPACE")]
  | NotDarwin => [("ENV_OUTPUT", "BEAR_OUTPUT");
                  ("ENV_PRELOAD", "LD_PRELOAD")]
  end.

(** [get_ear_so_file], given what
    [glob.glob(os.path.join(path, 'ear*.so'))] found:
    [candidates[0] if len(candidates) else None]. *)
Definition get_ear_so_file (candidates : list string) : option string :=
  match candidates with
  | [] => None
  | c :: _ => Some c
  end.

(** One turn of the loop over [ENVIRONMENTS]. *)
Definition environment_step (candidates : list string) (destination : string)
  (environment : Dict.t) (entry : string * string) : Dict.t :=
  let (alias, key) := entry in
  let value :=
    if (alias =? "ENV_PRELOAD")%string then get_ear_so_file candidates
    else if (alias =? "ENV_OUTPUT")%string then Some destination
    else Some "1" in
  Dict.update environment key value.

(** The environment [run_build] hands to the build: a copy of
    [os.environ], updated for each entry of [ENVIRONMENTS]. *)
Definition run_build_environment (p : platform) (environ : Dict.t)
  (candidates : list string) (destination : string) : Dict.t :=
  fold_left (environment_step candidates destination) (ENVIRONMENTS p)
    environ.

(** ** Reading a file in text mode

    Under Python 3, which the module supports, [open(filename, 'r')]
    decodes the file and [read()] returns its characters with every
    carriage return, alone or followed by a line feed, turned into one
    line feed (universal newlines). *)

Module TextMode.

Definition CR : ascii := ascii_of_nat 13.
Definition LF : ascii := ascii_of_nat 10.

(** The newline translation; [pending_cr] says that the character before
    was a carriage return, whose line feed is already out. *)
Fixpoint translate (pending_cr : bool) (s : string) : string :=
  match s with
  | EmptyString => EmptyString
  | String c s' =>
      if Ascii.eqb c CR then String LF (translate true s')
      else if Ascii.eqb c LF
           then if pending_cr then translate false s'
                else String LF (translate false s')
           else String c (translate false s')
  end.

Definition universal_newlines (s : string) : string := translate false s.

(** [open(filename, 'r')] and [read()], given the decoded characters of
    the file (or the exception of a file that cannot be opened, read or
    decoded). *)
Definition read (open_raw : string -> result string) (filename : string)
  : result string :=
  raw <- open_raw filename ;;
  Return (universal_newlines raw).

End TextMode.

(** A trace file one argument of which holds a carriage return. *)
Definition cr_argument : string := String "a" (String TextMode.CR "b").

Definition cr_trace : string :=
  Example.trace "100" "1" "execve" "/home/u" ["cc"; cr_argument].

(** ** Vocabulary of the statements *)

(** The computation raised an exception. *)
Definition failed {A : Type} (m : result A) : bool :=
  match m with
  | Raise _ => true
  | Return _ => false
  end.

(** The trace file cannot be opened or read. *)
Definition unreadable (open_read : string -> result string)
  (filename : string) : bool :=
  failed (open_read filename).

(** The trace file can be read and has fewer than five fields. *)
Definition too_short (open_read : string -> result string)
  (filename : string) : bool :=
  match open_read filename with
  | Return content => Nat.ltb (List.length (Py.split RS content)) 5
  | Raise _ => false
  end.

(** The argument vector put back together: joined with the unit
    separator and closed by one. *)
Definition rejoin (command : list string) : string :=
  (Py.join (String US "") command ++ String US "")%string.

(** The entry [format_record] builds for one operand of a record. *)
Definition entry_of (getcwd : string) (record : TraceRecord.t)
  (operand : string) : Entry.t :=
  Entry.Build (TraceRecord.directory record)
    (Py.join " " (TraceRecord.command record))
    (OsPath.abspath getcwd operand).

(** The Python 3 class of an exception (for the classifier, whose own
    classes are not known, the base class). *)
Definition exn_class (e : exn) : string :=
  match e with
  | IndexError => "IndexError"
  | EnvironmentError _ => "OSError"
  | ExternalError _ => "Exception"
  end.

(** What the chain of filter and formatter yields for one record: nothing
    when the filter test rejects it; otherwise, with the answer of the
    classifier, one entry per source-file operand of a compilation and
    nothing for another action. *)
Definition record_entries (getcwd : string)
  (commands_parse : list string -> result Atoms)
  (record : TraceRecord.t) (es : list Entry.t) : Prop :=
  (is_compiler_call (TraceRecord.command record) = Return false /\ es = [])
  \/ (is_compiler_call (TraceRecord.command record) = Return true
      /\ exists atoms,
          commands_parse (TraceRecord.command record) = Return atoms
          /\ es = match action atoms with
                  | Compile => map (entry_of getcwd record) (files atoms)
                  | _ => []
                  end).

(** A component a normalised path may contain: not empty, not [.], not
    [..], and without a slash. *)
Definition plain (comp : string) : Prop :=
  comp <> "" /\ comp <> "." /\ comp <> ".."
  /\ Py.free_of OsPath.sep comp = true.

(** ** Strings: appending, splitting and joining *)

Lemma append_nil_r (s : string) : (s ++ "")%string = s.
Proof. induction s as [|a s IH]; simpl; [reflexivity | now rewrite IH]. Qed.

Lemma append_assoc (s t u : string) :
  ((s ++ t) ++ u)%string = (s ++ (t ++ u))%string.
Proof. induction s as [|a s IH]; simpl; [reflexivity | now rewrite IH]. Qed.

Lemma split_not_nil (c : ascii) (s : string) : Py.split c s <> [].
Proof.
  destruct s as [|a s]; simpl; [discriminate|].
  destruct (Ascii.eqb a c); [discriminate|].
  destruct (Py.split c s); discriminate.
Qed.

Lemma split_free (c : ascii) (s : string) :
  Py.free_of c s = true -> Py.split c s = [s].
Proof.
  induction s as [|a s IH]; simpl; [reflexivity|].
  intros H. apply andb_prop in H as [Ha Hs].
  apply negb_true_iff in Ha. rewrite Ha, (IH Hs). reflexivity.
Qed.

(** Splitting a word followed by a separator and a rest. *)
Lemma split_app (c : ascii) (w rest : string) :
  Py.free_of c w = true ->
  Py.split c (w ++ String c rest) = w :: Py.split c rest.
Proof.
  induction w as [|a w IH]; simpl; intros H.
  - now rewrite Ascii.eqb_refl.
  - apply andb_prop in H as [Ha Hw]. apply negb_true_iff in Ha.
    rewrite Ha, (IH Hw). reflexivity.
Qed.

(** Every field [split] returns is free of the separator. *)
Lemma split_fields_free (c : ascii) (s : string) :
  Forall (fun w => Py.free_of c w = true) (Py.split c s).
Proof.
  induction s as [|a s IH]; simpl.
  - constructor; [reflexivity | constructor].
  - destruct (Ascii.eqb a c) eqn:E.
    + constructor; [reflexivity | exact IH].
    + destruct (Py.split c s) as [|w ws].
      * constructor; [simpl; now rewrite E | constructor].
      * inversion IH; subst. constructor; [simpl; now rewrite E | assumption].
Qed.

(** Joining what [split] returned gives the string back. *)
Lemma join_split (c : ascii) (s : string) :
  Py.join (String c "") (Py.split c s) = s.
Proof.
  unfold Py.join. induction s as [|a s IH]; simpl; [reflexivity|].
  destruct (Ascii.eqb a c) eqn:E.
  - apply Ascii.eqb_eq in E; subst a.
    pose proof (split_not_nil c s) as Hne.
    destruct (Py.split c s) as [|w ws]; [contradiction|].
    simpl in *. now rewrite IH.
  - destruct (Py.split c s) as [|w ws] eqn:Es.
    + now destruct (split_not_nil c s).
    + destruct ws; simpl in *; now rewrite <- IH.
Qed.

(** Splitting a join of separator-free fields gives the fields back. *)
Lemma split_join (c : ascii) (l : list string) :
  l <> [] -> Forall (fun w => Py.free_of c w = true) l ->
  Py.split c (Py.join (String c "") l) = l.
Proof.
  unfold Py.join. induction l as [|w l IH]; [contradiction|].
  intros _ H. inversion H as [|? ? Hw Hl]; subst.
  destruct l as [|w' l'].
  - simpl. now apply split_free.
  - change (String.concat (String c "") (w :: w' :: l'))
      with (w ++ String c (String.concat (String c "") (w' :: l')))%string.
    rewrite split_app by assumption.
    rewrite IH; [reflexivity | discriminate | assumption].
Qed.

(** A separator at the very end opens one last, empty field. *)
Lemma split_terminated (c : ascii) (s : string) :
  Py.split c (s ++ String c "") = Py.split c s ++ [""].
Proof.
  induction s as [|a s IH]; simpl.
  - now rewrite Ascii.eqb_refl.
  - destruct (Ascii.eqb a c); rewrite IH; [reflexivity|].
    pose proof (split_not_nil c s) as Hne.
    destruct (Py.split c s); [contradiction | reflexivity].
Qed.

Lemma endswith_char_inv (s : string) (c : ascii) :
  Py.endswith_char s c = true -> exists x, s = (x ++ String c "")%string.
Proof.
  induction s as [|a s IH]; simpl; [discriminate|].
  destruct s as [|b s'].
  - intros H. apply Ascii.eqb_eq in H; subst. now exists "".
  - intros H. destruct (IH H) as [x Hx]. exists (String a x).
    simpl. now rewrite <- Hx.
Qed.

(** The last field is empty exactly for the empty string and for a string
    that ends with the separator. *)
Lemma endswith_char_cons (a c : ascii) (s : string) :
  s = "" /\ Ascii.eqb a c = true \/ Py.endswith_char s c = true ->
  Py.endswith_char (String a s) c = true.
Proof.
  intros [[-> H] | H]; [exact H|].
  destruct s; [discriminate | exact H].
Qed.

Lemma last_split_empty (c : ascii) (s : string) :
  last (Py.split c s) "" = "" ->
  s = "" \/ Py.endswith_char s c = true.
Proof.
  induction s as [|a s IH]; [now left|]. right.
  apply endswith_char_cons.
  pose proof (split_not_nil c s) as Hne.
  simpl in H. destruct (Ascii.eqb a c) eqn:E.
  - destruct (Py.split c s) as [|w ws]; [contradiction|].
    destruct (IH H) as [Hs | Hend]; [now left | now right].
  - destruct (Py.split c s) as [|w ws] eqn:Es; [contradiction|].
    destruct ws as [|w' ws']; [discriminate H|].
    destruct (IH H) as [Hs | Hend]; [|now right].
    subst s. discriminate Es.
Qed.

(** ** The matcher decides the language of the expression *)

Section Matcher.

Import Re.

Lemma append_nil_inv (s1 s2 : string) :
  (s1 ++ s2)%string = "" -> s1 = "" /\ s2 = "".
Proof. destruct s1; simpl; [auto | discriminate]. Qed.

Lemma nullable_lang (r : regex) : nullable r = true <-> lang r "".
Proof.
  induction r as [| | | | |r1 IH1 r2 IH2|r1 IH1 r2 IH2|r IH|r IH|]; simpl;
    split; intros H;
    try discriminate; try (now constructor); try (now inversion H).
  - apply andb_prop in H as [H1 H2].
    change "" with ("" ++ "")%string.
    constructor; [now apply IH1 | now apply IH2].
  - inversion H; subst.
    match goal with
    | E : (_ ++ _)%string = "" |- _ => apply append_nil_inv in E as [-> ->]
    end.
    apply andb_true_intro. split; [now apply IH1 | now apply IH2].
  - apply orb_prop in H as [H | H];
      [apply lang_alt_l; now apply IH1 | apply lang_alt_r; now apply IH2].
  - apply orb_true_intro.
    inversion H; subst; [left; now apply IH1 | right; now apply IH2].
Qed.

Lemma lang_of_bool (b : bool) (s : string) :
  lang (of_bool b) s -> b = true /\ s = "".
Proof. destruct b; simpl; intros H; inversion H; auto. Qed.

Lemma deriv_sound (r : regex) (a : ascii) (s : string) :
  lang (deriv a r) s -> lang r (String a s).
Proof.
  revert s.
  induction r as [| | | | |r1 IH1 r2 IH2|r1 IH1 r2 IH2|r IH|r IH|]; simpl;
    intros s H.
  - inversion H.
  - apply lang_of_bool in H as [H ->]. apply Ascii.eqb_eq in H as ->.
    constructor.
  - apply lang_of_bool in H as [H ->]. apply negb_true_iff in H.
    apply Ascii.eqb_neq in H. now constructor.
  - apply lang_of_bool in H as [H ->]. apply negb_true_iff in H.
    apply Ascii.eqb_neq in H. now constructor.
  - apply lang_of_bool in H as [H ->]. apply existsb_exists in H as (c & Hc & E).
    apply Ascii.eqb_eq in E as ->. now constructor.
  - assert (Hcat : forall s, lang (Cat (deriv a r1) r2) s ->
                             lang (Cat r1 r2) (String a s)).
    { intros s' H'. inversion H'; subst.
      match goal with
      | |- lang _ (String a (?s1 ++ ?s2)) =>
          change (String a (s1 ++ s2)) with (String a s1 ++ s2)%string
      end.
      constructor; [now apply IH1 | assumption]. }
    destruct (nullable r1) eqn:Hn; [|now apply Hcat].
    inversion H; subst; [now apply Hcat|].
    change (String a s) with ("" ++ String a s)%string.
    constructor; [now apply nullable_lang | now apply IH2].
  - inversion H; subst;
      [apply lang_alt_l; now apply IH1 | apply lang_alt_r; now apply IH2].
  - inversion H; subst.
    match goal with
    | |- lang _ (String a (?s1 ++ ?s2)) =>
        change (String a (s1 ++ s2)) with (String a s1 ++ s2)%string
    end.
    constructor; [now apply IH | assumption].
  - apply lang_opt_some. now apply IH.
  - inversion H.
Qed.

Lemma deriv_complete (r : regex) (w : string) :
  lang r w -> forall a s, w = String a s -> lang (deriv a r) s.
Proof.
  induction 1 as [|c|b Hb|c b Hb|cs b Hb|r1 r2 s1 s2 H1 IH1 H2 IH2
                  |r1 r2 s0 H0 IH0|r1 r2 s0 H0 IH0| |r b s1 s2 H1 IH1 H2 IH2
                  | |r s0 H0 IH0];
    intros a s E; simpl; try discriminate.
  - inversion E; subst. rewrite Ascii.eqb_refl. constructor.
  - inversion E; subst. apply Ascii.eqb_neq in Hb. rewrite Hb. constructor.
  - inversion E; subst. apply Ascii.eqb_neq in Hb. rewrite Hb. constructor.
  - inversion E; subst.
    assert (Hex : existsb (Ascii.eqb a) cs = true)
      by (apply existsb_exists; exists a; split;
          [assumption | apply Ascii.eqb_refl]).
    rewrite Hex. constructor.
  - destruct s1 as [|b s1'].
    + simpl in E. subst s2.
      apply nullable_lang in H1. rewrite H1.
      apply lang_alt_r. now apply IH2.
    + simpl in E. inversion E; subst.
      assert (Hc : lang (Cat (deriv a r1) r2) (s1' ++ s2))
        by (constructor; [now apply IH1 | assumption]).
      destruct (nullable r1); [now apply lang_alt_l | assumption].
  - apply lang_alt_l. now apply IH0.
  - apply lang_alt_r. now apply IH0.
  - simpl in E. inversion E; subst.
    constructor; [now apply IH1 | assumption].
  - now apply IH0.
Qed.

(** [fullmatch] holds exactly for the words of the language. *)
Lemma fullmatch_lang (r : regex) (s : string) :
  fullmatch r s = true <-> lang r s.
Proof.
  revert r. induction s as [|a s IH]; simpl; intros r.
  - apply nullable_lang.
  - rewrite IH. split; [apply deriv_sound|].
    intros H. now apply (deriv_complete r (String a s)).
Qed.

(** [pattern.match] holds exactly when the body matches the whole string,
    or the whole string but for a newline that ends it. *)
Lemma match_lang (p : pattern) (s : string) :
  match_ p s = true
  <-> lang (body p) s
      \/ exists x, s = (x ++ String newline "")%string /\ lang (body p) x.
Proof.
  unfold match_, dollar. rewrite fullmatch_lang. split.
  - intros H. inversion H; subst.
    match goal with
    | H2 : lang (Opt _) _ |- _ => inversion H2; subst
    end.
    + left. now rewrite append_nil_r.
    + match goal with
      | H3 : lang (Chr _) _ |- _ => inversion H3; subst
      end.
      right. eauto.
  - intros [H | (x & -> & H)].
    + rewrite <- (append_nil_r s). constructor; [assumption | constructor].
    + constructor; [assumption|]. apply lang_opt_some. constructor.
Qed.

End Matcher.

(** ** The trace-file parser *)

Section Parser.

Variable open_read : string -> result string.

(** What [parse] returns on a readable file with at least five fields. *)
Lemma parse_fields (filename content f0 f1 f2 f3 f4 : string)
  (rest : list string) :
  open_read filename = Return content ->
  Py.split RS content = f0 :: f1 :: f2 :: f3 :: f4 :: rest ->
  parse open_read filename
  = Return (TraceRecord.Build f0 f1 f2 f3 (Py.drop_last (Py.split US f4))).
Proof. intros Ho Hs. unfold parse. rewrite Ho. simpl. now rewrite Hs. Qed.

Lemma parse_short (filename content : string) :
  open_read filename = Return content ->
  List.length (Py.split RS content) < 5 ->
  parse open_read filename = Raise IndexError.
Proof.
  intros Ho Hs. unfold parse. rewrite Ho. simpl.
  destruct (Py.split RS content) as [|f0 [|f1 [|f2 [|f3 [|f4 rest]]]]];
    simpl in *; try reflexivity; lia.
Qed.

Lemma five_fields (l : list string) :
  5 <= List.length l ->
  exists f0 f1 f2 f3 f4 rest, l = f0 :: f1 :: f2 :: f3 :: f4 :: rest.
Proof.
  destruct l as [|f0 [|f1 [|f2 [|f3 [|f4 rest]]]]]; simpl; try lia.
  intros _. now exists f0, f1, f2, f3, f4, rest.
Qed.

(** On a text of five fields, the fifth closed by a unit separator, the
    parser succeeds, and joining the parsed argument vector with the unit
    separator and adding one closing unit separator gives back the fifth
    field of the text. *)
Lemma parse_rejoin_text
  (filename content f0 f1 f2 f3 f4 : string) :
  open_read filename = Return content ->
  Py.split RS content = [f0; f1; f2; f3; f4] ->
  Py.endswith_char f4 US = true ->
  exists r, parse open_read filename = Return r
            /\ rejoin (TraceRecord.command r) = f4.
Proof.
  intros Ho Hs Hend.
  exists (TraceRecord.Build f0 f1 f2 f3 (Py.drop_last (Py.split US f4))).
  split; [now apply parse_fields with (content := content) (rest := [])|].
  destruct (endswith_char_inv _ _ Hend) as [x ->].
  unfold rejoin, Py.drop_last. cbn [TraceRecord.command].
  rewrite split_terminated, removelast_last.
  now rewrite join_split.
Qed.

(** The parser raises exactly on unreadable and on short files. *)
Lemma parse_failure_condition (filename : string) :
  failed (parse open_read filename)
  = unreadable open_read filename || too_short open_read filename.
Proof.
  unfold unreadable, too_short.
  destruct (open_read filename) as [content|e] eqn:Ho.
  - simpl. destruct (Nat.ltb_spec (List.length (Py.split RS content)) 5)
      as [Hlt | Hge].
    + now rewrite (parse_short _ _ Ho Hlt).
    + destruct (five_fields _ Hge) as (f0 & f1 & f2 & f3 & f4 & rest & Hs).
      now rewrite (parse_fields _ _ _ _ _ _ _ _ Ho Hs).
  - unfold parse. now rewrite Ho.
Qed.

(** C7 (as amended): the parser raises exactly when the file cannot be
    read, and then the exception of [open]/[read] itself, or has fewer
    than five record-separator-delimited fields, and then [IndexError];
    on every other file it returns a record whose first four fields are
    the first four fields of the file and whose argument vector, with
    one more element and joined by the unit separator, is the fifth. *)
Theorem parse_fails_exactly (filename : string) :
  failed (parse open_read filename)
  = unreadable open_read filename || too_short open_read filename
  /\ (forall e, open_read filename = Raise e ->
                parse open_read filename = Raise e)
  /\ (forall content,
        open_read filename = Return content ->
        List.length (Py.split RS content) < 5 ->
        parse open_read filename = Raise IndexError)
  /\ (forall content,
        open_read filename = Return content ->
        5 <= List.length (Py.split RS content) ->
        exists f0 f1 f2 f3 f4 rest r a,
          String.concat (String RS "") (f0 :: f1 :: f2 :: f3 :: f4 :: rest)
          = content
          /\ Forall (fun f => Py.free_of RS f = true)
               (f0 :: f1 :: f2 :: f3 :: f4 :: rest)
          /\ parse open_read filename = Return r
          /\ TraceRecord.pid r = f0
          /\ TraceRecord.ppid r = f1
          /\ TraceRecord.function r = f2
          /\ TraceRecord.directory r = f3
          /\ String.concat (String US "") (TraceRecord.command r ++ [a]) = f4
          /\ Forall (fun arg => Py.free_of US arg = true)
               (TraceRecord.command r ++ [a])).
Proof.
  split; [apply parse_failure_condition|].
  split; [intros e He; unfold parse; now rewrite He|].
  split; [intros content Ho Hlt; now apply parse_short with content|].
  intros content Ho Hge.
  destruct (five_fields _ Hge) as (f0 & f1 & f2 & f3 & f4 & rest & Hs).
  exists f0, f1, f2, f3, f4, rest.
  exists (TraceRecord.Build f0 f1 f2 f3 (Py.drop_last (Py.split US f4))).
  exists (last (Py.split US f4) "").
  split; [rewrite <- Hs; apply join_split|].
  split; [rewrite <- Hs; apply split_fields_free|].
  split; [now apply parse_fields with (content := content) (rest := rest)|].
  cbn [TraceRecord.pid TraceRecord.ppid TraceRecord.function
       TraceRecord.directory TraceRecord.command].
  do 4 (split; [reflexivity|]).
  unfold Py.drop_last.
  rewrite <- (app_removelast_last "" (split_not_nil US f4)).
  split; [apply join_split | apply split_fields_free].
Qed.

(** C10: the parser drops the last unit-separator-delimited element of
    the fifth field whatever it is: the argument vector is the split of
    the fifth field without its final element, and when the fifth field
    is not empty and lacks the closing separator, the dropped element is
    a real (non-empty) argument. *)
Theorem parse_drops_last_element
  (filename content f0 f1 f2 f3 f4 : string) (rest : list string) :
  open_read filename = Return content ->
  Py.split RS content = f0 :: f1 :: f2 :: f3 :: f4 :: rest ->
  exists r a,
    parse open_read filename = Return r
    /\ TraceRecord.command r = removelast (Py.split US f4)
    /\ Py.split US f4 = TraceRecord.command r ++ [a]
    /\ (f4 <> "" -> Py.endswith_char f4 US = false -> a <> "").
Proof.
  intros Ho Hs.
  exists (TraceRecord.Build f0 f1 f2 f3 (Py.drop_last (Py.split US f4))).
  exists (last (Py.split US f4) "").
  split; [now apply parse_fields with (content := content) (rest := rest)|].
  split; [reflexivity|].
  split; [apply app_removelast_last, split_not_nil|].
  intros Hne Hend Hlast.
  destruct (last_split_empty _ _ Hlast) as [H | H]; [contradiction|].
  congruence.
Qed.

End Parser.

Lemma parse_fails_exactly_witness :
  parse (Example.lookup [("/tmp/bear-x/cmd.1", "truncated")])
    "/tmp/bear-x/cmd.1"
  = Raise IndexError
  /\ parse (Example.lookup []) "/tmp/bear-x/cmd.1"
     = Raise (EnvironmentError "No such file or directory")
  /\ exists f0 f1 f2 f3 f4 rest r a,
      String.concat (String RS "") (f0 :: f1 :: f2 :: f3 :: f4 :: rest)
      = Example.unterminated
      /\ Forall (fun f => Py.free_of RS f = true)
           (f0 :: f1 :: f2 :: f3 :: f4 :: rest)
      /\ parse (Example.lookup Example.files_unterminated)
           "/tmp/bear-x/cmd.1" = Return r
      /\ TraceRecord.pid r = f0
      /\ TraceRecord.ppid r = f1
      /\ TraceRecord.function r = f2
      /\ TraceRecord.directory r = f3
      /\ String.concat (String US "") (TraceRecord.command r ++ [a]) = f4
      /\ Forall (fun arg => Py.free_of US arg = true)
           (TraceRecord.command r ++ [a]).
Proof.
  split; [|split].
  - apply (proj1 (proj2 (proj2
             (parse_fails_exactly
                (Example.lookup [("/tmp/bear-x/cmd.1", "truncated")])
                "/tmp/bear-x/cmd.1"))) "truncated");
      [reflexivity | vm_compute; lia].
  - apply (proj1 (proj2
             (parse_fails_exactly (Example.lookup [])
                "/tmp/bear-x/cmd.1"))).
    reflexivity.
  - apply (proj2 (proj2 (proj2
             (parse_fails_exactly
                (Example.lookup Example.files_unterminated)
                "/tmp/bear-x/cmd.1"))) Example.unterminated);
      [reflexivity | vm_compute; lia].
Defined.

(** A readable file with fewer than five fields makes the parser raise
    the built-in [IndexError] of the list indexing, not an exception of a
    class [ParseError]. *)
Lemma parse_short_raises_index_error :
  too_short (Example.lookup [("/tmp/bear-x/cmd.1", "truncated")])
    "/tmp/bear-x/cmd.1" = true
  /\ exists e,
      parse (Example.lookup [("/tmp/bear-x/cmd.1", "truncated")])
        "/tmp/bear-x/cmd.1" = Raise e
      /\ exn_class e = "IndexError"
      /\ exn_class e <> "ParseError".
Proof.
  split; [reflexivity|]. exists IndexError.
  split; [reflexivity|]. split; [reflexivity | discriminate].
Qed.

Lemma parse_drops_last_element_witness :
  exists r a,
    parse (Example.lookup Example.files_unterminated) "/tmp/bear-x/cmd.1"
    = Return r
    /\ TraceRecord.command r
       = removelast (Py.split US (Py.join (String US "") ["cc"; "-c"; "foo.c"]))
    /\ Py.split US (Py.join (String US "") ["cc"; "-c"; "foo.c"])
       = TraceRecord.command r ++ [a]
    /\ (Py.join (String US "") ["cc"; "-c"; "foo.c"] <> "" ->
        Py.endswith_char (Py.join (String US "") ["cc"; "-c"; "foo.c"]) US
        = false ->
        a <> "").
Proof.
  apply (parse_drops_last_element
           (Example.lookup Example.files_unterminated) "/tmp/bear-x/cmd.1"
           Example.unterminated "100" "1" "execve" "/home/u"
           (Py.join (String US "") ["cc"; "-c"; "foo.c"]) []); reflexivity.
Defined.

(** The unterminated trace of the example loses [foo.c]. *)
Example unterminated_loses_argument :
  parse (Example.lookup Example.files_unterminated) "/tmp/bear-x/cmd.1"
  = Return (TraceRecord.Build "100" "1" "execve" "/home/u" ["cc"; "-c"]).
Proof. reflexivity. Qed.

(** ** The compiler filter *)

Lemma cancel_parameter_cons (executable : string) (args : list string) :
  cancel_parameter (executable :: args)
  = existsb (Re.match_ (Re.Anchored (Re.lit "-cc1"))) args.
Proof.
  unfold cancel_parameter, cancel_patterns, Py.from_second. simpl tl.
  cbn [existsb]. now rewrite orb_false_r.
Qed.

Lemma cancel_parameter_token (executable : string) (args : list string) :
  In "-cc1" args -> cancel_parameter (executable :: args) = true.
Proof.
  intros H. rewrite cancel_parameter_cons.
  apply existsb_exists. exists "-cc1". split; [exact H | reflexivity].
Qed.

(** The filter test on a vector with at least the executable never
    raises. *)
Lemma is_compiler_call_cons (executable : string) (args : list string) :
  exists b, is_compiler_call (executable :: args) = Return b.
Proof. unfold is_compiler_call, known_compiler. simpl. eauto. Qed.

(** The pattern tables on some executable names; the last one shows the
    final [$] accepting a name that ends with a newline. *)
Example known_compiler_table :
  map (fun executable => known_compiler [executable])
    ["cc"; "c++"; "/usr/bin/cc"; "g++"; "x86_64-linux-gnu-gcc-4.9";
     "clang-3.5"; "llvm-g++"; "gccx"; "clang-4.0"; "/bin/ls"; "";
     String "g" (String "c" (String "c" (String Re.newline "")))]
  = map Return
      [true; true; true; true; true; true; true; false; false; false; false;
       true].
Proof. reflexivity. Qed.

(** C3: the vectors [gcc], [gcc-4.8] and [/usr/bin/clang++] are accepted,
    alone and followed by any arguments none of which cancels; a vector
    with executable [python] is rejected; and a vector with executable
    [gcc] that has [-cc1] among its later arguments is rejected although
    [gcc] itself is a known compiler. *)
Theorem recognizer_examples :
  is_compiler_call ["gcc"] = Return true
  /\ is_compiler_call ["gcc-4.8"] = Return true
  /\ is_compiler_call ["/usr/bin/clang++"] = Return true
  /\ (forall executable args,
        In executable ["gcc"; "gcc-4.8"; "/usr/bin/clang++"] ->
        cancel_parameter (executable :: args) = false ->
        is_compiler_call (executable :: args) = Return true)
  /\ (forall args, is_compiler_call ("python" :: args) = Return false)
  /\ (forall args,
        In "-cc1" args ->
        known_compiler ("gcc" :: args) = Return true
        /\ is_compiler_call ("gcc" :: args) = Return false).
Proof.
  split; [reflexivity|]. split; [reflexivity|]. split; [reflexivity|].
  split; [|split].
  - intros executable args Hin Hc. unfold is_compiler_call. rewrite Hc.
    simpl in Hin. destruct Hin as [<- | [<- | [<- | []]]]; reflexivity.
  - reflexivity.
  - intros args H. split; [reflexivity|]. unfold is_compiler_call.
    rewrite (cancel_parameter_token _ _ H). reflexivity.
Qed.

Lemma recognizer_examples_witness :
  is_compiler_call ["gcc"; "-c"; "a.c"] = Return true
  /\ known_compiler ["gcc"; "-cc1"; "a.c"] = Return true
  /\ is_compiler_call ["gcc"; "-cc1"; "a.c"] = Return false.
Proof.
  destruct recognizer_examples as (_ & _ & _ & Hacc & _ & Hrej).
  split.
  - apply (Hacc "gcc" ["-c"; "a.c"]); [simpl; auto | reflexivity].
  - apply (Hrej ["-cc1"; "a.c"]). simpl; auto.
Defined.

(** C8: on the empty argument vector the filter test does not return a
    boolean: [command[0]] raises [IndexError], and a scratch directory
    holding the trace of a process started without arguments makes the
    filtered collection raise and [main] exit with 127 without writing
    the database. *)
Theorem recognizer_raises_on_empty_vector :
  known_compiler [] = Raise IndexError
  /\ is_compiler_call [] = Raise IndexError
  /\ parse (Example.lookup Example.files_noargs) "/tmp/bear-x/cmd.1"
     = Return (TraceRecord.Build "100" "1" "execve" "/home/u" [])
  /\ Example.collect Example.files_noargs true = Raise IndexError
  /\ Example.main Example.files_noargs
       {| output := "compile_commands.json"; filtering := false;
          build := ["make"] |}
       {| stdout := []; written := [] |}
     = (127%Z, {| stdout := ["list index out of range"]; written := [] |}).
Proof. repeat split. Qed.

(** ** Comprehensions and generator chains *)

Section Traversals.

Context {A B : Type}.

Lemma mapM_length (f : A -> result B) (l : list A) (bs : list B) :
  mapM f l = Return bs -> List.length bs = List.length l.
Proof.
  revert bs. induction l as [|a l IH]; simpl; intros bs H.
  - now inversion H.
  - destruct (f a); [|discriminate]. simpl in H.
    destruct (mapM f l) eqn:E; [|discriminate].
    inversion H; subst. simpl. now rewrite (IH _ eq_refl).
Qed.

Lemma mapM_total (f : A -> result B) (l : list A) :
  (forall a, In a l -> failed (f a) = false) ->
  exists bs, mapM f l = Return bs.
Proof.
  induction l as [|a l IH]; simpl; intros H; [eauto|].
  pose proof (H a (or_introl eq_refl)) as Ha.
  destruct (f a); [|discriminate]. simpl.
  destruct IH as [bs ->]; [auto|]. simpl. eauto.
Qed.

Lemma mapM_raises (f : A -> result B) (l : list A) (a : A) :
  In a l -> failed (f a) = true -> failed (mapM f l) = true.
Proof.
  induction l as [|x l IH]; simpl; intros Hin Ha; [contradiction|].
  destruct (f x) eqn:Ex; [|reflexivity]. simpl.
  destruct Hin as [-> | Hin]; [rewrite Ex in Ha; discriminate|].
  specialize (IH Hin Ha). destruct (mapM f l); [discriminate | reflexivity].
Qed.

Lemma mapM_In (f : A -> result B) (l : list A) (bs : list B) (b : B) :
  mapM f l = Return bs -> In b bs ->
  exists a, In a l /\ f a = Return b.
Proof.
  revert bs. induction l as [|a l IH]; simpl; intros bs H Hin.
  - inversion H; subst. contradiction.
  - destruct (f a) as [b0|] eqn:Ea; [|discriminate]. simpl in H.
    destruct (mapM f l) as [bs0|] eqn:E; [|discriminate].
    inversion H; subst. destruct Hin as [-> | Hin].
    + exists a. auto.
    + destruct (IH _ eq_refl Hin) as (a' & Ha' & Hf). exists a'. auto.
Qed.

Lemma flatMapM_In (f : A -> result (list B)) (l : list A) (bs : list B)
  (b : B) :
  flatMapM f l = Return bs -> In b bs ->
  exists a xs, In a l /\ f a = Return xs /\ In b xs.
Proof.
  revert bs. induction l as [|a l IH]; simpl; intros bs H Hin.
  - inversion H; subst. contradiction.
  - destruct (f a) as [xs|] eqn:Ea; [|discriminate]. simpl in H.
    destruct (flatMapM f l) as [rest|] eqn:E; [|discriminate].
    inversion H; subst. apply in_app_or in Hin as [Hin | Hin].
    + exists a, xs. auto.
    + destruct (IH _ eq_refl Hin) as (a' & xs' & Ha' & Hf & Hb).
      exists a', xs'. auto.
Qed.

(** A chain that yields at most [k] outputs per input and never raises
    yields at most [k] times as many outputs as it has inputs. *)
Lemma flatMapM_bounded (f : A -> result (list B)) (k : nat) (l : list A) :
  (forall a, In a l ->
             exists xs, f a = Return xs /\ List.length xs <= k) ->
  exists bs, flatMapM f l = Return bs
             /\ List.length bs <= k * List.length l.
Proof.
  induction l as [|a l IH]; simpl; intros H.
  - exists []. split; [reflexivity | simpl; lia].
  - destruct (H a (or_introl eq_refl)) as (xs & -> & Hxs). simpl.
    destruct IH as (bs & -> & Hbs); [auto|]. simpl.
    exists (xs ++ bs). split; [reflexivity|].
    rewrite length_app. lia.
Qed.

End Traversals.

(** ** The entry formatter and the collection *)

Section Pipeline.

Variable open_read : string -> result string.
Variable iglob : string -> list string.
Variable getcwd : string.
Variable commands_parse : list string -> result Atoms.

Local Abbreviation format_record' := (format_record getcwd commands_parse).
Local Abbreviation chain' := (chain getcwd commands_parse).
Local Abbreviation collect' :=
  (collect open_read iglob getcwd commands_parse).
Local Abbreviation trace_files' := (trace_files iglob).
Local Abbreviation parse' := (parse open_read).
Local Abbreviation entry_of' := (entry_of getcwd).

Lemma format_record_compile (record : TraceRecord.t) (atoms : Atoms) :
  commands_parse (TraceRecord.command record) = Return atoms ->
  action atoms = Compile ->
  format_record' record = Return (map (entry_of' record) (files atoms)).
Proof.
  intros Hp Ha. unfold format_record.
  rewrite Hp. simpl. now rewrite Ha.
Qed.

Lemma format_record_other (record : TraceRecord.t) (atoms : Atoms) :
  commands_parse (TraceRecord.command record) = Return atoms ->
  action atoms <> Compile ->
  format_record' record = Return [].
Proof.
  intros Hp Ha. unfold format_record.
  rewrite Hp. simpl. destruct (action atoms); [congruence | | ]; reflexivity.
Qed.

(** What one record contributes to the chain. *)
Lemma format_record_inv (record : TraceRecord.t) (es : list Entry.t)
  (e : Entry.t) :
  format_record' record = Return es -> In e es ->
  exists atoms operand,
    commands_parse (TraceRecord.command record) = Return atoms
    /\ action atoms = Compile
    /\ In operand (files atoms)
    /\ e = entry_of' record operand.
Proof.
  unfold format_record. intros H Hin.
  destruct (commands_parse (TraceRecord.command record)) as [atoms|] eqn:Hp;
    [|discriminate].
  simpl in H. inversion H; subst; clear H.
  destruct (action atoms) eqn:Ha; simpl in Hin; try contradiction.
  apply in_map_iff in Hin as (operand & <- & Hop).
  exists atoms, operand. auto.
Qed.

Lemma chain_inv (records : list TraceRecord.t) (es : list Entry.t)
  (e : Entry.t) :
  chain' records = Return es -> In e es ->
  exists record atoms operand,
    In record records
    /\ is_compiler_call (TraceRecord.command record) = Return true
    /\ commands_parse (TraceRecord.command record) = Return atoms
    /\ action atoms = Compile
    /\ In operand (files atoms)
    /\ e = entry_of' record operand.
Proof.
  intros H Hin. unfold chain in H.
  destruct (flatMapM_In _ _ _ _ H Hin) as (record & xs & Hr & Hx & Hxs).
  unfold general_filter in Hx.
  destruct (is_compiler_call (TraceRecord.command record)) as [[|]|] eqn:Hc;
    simpl in Hx; try discriminate.
  - destruct (format_record getcwd commands_parse record)
      as [ys|] eqn:Hf; [|discriminate].
    simpl in Hx. inversion Hx; subst; clear Hx.
    rewrite app_nil_r in Hxs.
    destruct (format_record_inv _ _ _ Hf Hxs) as (atoms & operand & H1).
    exists record, atoms, operand. tauto.
  - inversion Hx; subst. contradiction.
Qed.

(** Where an emitted entry comes from. *)
Lemma collect_entry_inv (destination : string) (es : list Entry.t)
  (e : Entry.t) :
  collect' true destination = Return (Entries es) -> In e es ->
  exists filename record atoms operand,
    In filename (trace_files' destination)
    /\ parse' filename = Return record
    /\ is_compiler_call (TraceRecord.command record) = Return true
    /\ commands_parse (TraceRecord.command record) = Return atoms
    /\ action atoms = Compile
    /\ In operand (files atoms)
    /\ e = entry_of' record operand.
Proof.
  unfold collect. intros H Hin.
  destruct (mapM (parse open_read) (trace_files iglob destination))
    as [records|] eqn:Hm; [|discriminate].
  simpl in H.
  destruct (chain getcwd commands_parse records) as [es'|] eqn:Hc;
    [|discriminate].
  simpl in H. inversion H; subst; clear H.
  destruct (chain_inv _ _ _ Hc Hin)
    as (record & atoms & operand & Hr & Hrest).
  destruct (mapM_In _ _ _ _ Hm Hr) as (filename & Hf & Hp).
  exists filename, record, atoms, operand. tauto.
Qed.

(** The working directory of a parsed record is the fourth field of
    its trace file. *)
Lemma parse_directory (filename : string) (record : TraceRecord.t) :
  parse' filename = Return record ->
  exists content,
    open_read filename = Return content
    /\ nth_error (Py.split RS content) 3
       = Some (TraceRecord.directory record).
Proof.
  unfold parse. intros H.
  destruct (open_read filename) as [content|]; [|discriminate].
  exists content. split; [reflexivity|]. simpl in H.
  destruct (Py.split RS content) as [|f0 [|f1 [|f2 [|f3 [|f4 rest]]]]];
    try discriminate.
  simpl in H. inversion H. reflexivity.
Qed.

(** What the chain yields for one record with a non-empty argument
    vector on which the classifier answers. *)
Lemma chain_step_bounded (record : TraceRecord.t) (atoms : Atoms) :
  TraceRecord.command record <> [] ->
  commands_parse (TraceRecord.command record) = Return atoms ->
  exists xs,
    (kept <- general_filter record ;; flatMapM format_record' kept)
    = Return xs
    /\ List.length xs <= List.length (files atoms).
Proof.
  intros Hne Hp. unfold general_filter.
  destruct (TraceRecord.command record) as [|executable args] eqn:Hc;
    [contradiction|].
  destruct (is_compiler_call_cons executable args) as [[|] ->]; simpl.
  - unfold format_record. rewrite Hc, Hp. simpl.
    eexists. split; [reflexivity|]. rewrite app_nil_r.
    destruct (Action_eqb (action atoms) Compile); simpl; [|lia].
    now rewrite length_map.
  - exists []. split; [reflexivity | simpl; lia].
Qed.

(** C1 (as amended): for a record on which the classifier answers
    Compile with k source-file operands, the formatter yields exactly k
    entries, one per operand in order, every one with the record's
    recorded directory and with the argument vector joined by single
    spaces as its command; the file values are the absolute normalised
    paths of the operands, so they differ pairwise exactly when those
    paths do.  For any other action it yields no entry. *)
Theorem format_record_one_entry_per_operand
  (record : TraceRecord.t) (atoms : Atoms) :
  commands_parse (TraceRecord.command record) = Return atoms ->
  exists es,
    format_record' record = Return es
    /\ (action atoms = Compile ->
        List.length es = List.length (files atoms)
        /\ Forall2 (fun operand e => e = entry_of' record operand)
             (files atoms) es
        /\ Forall (fun e =>
                     Entry.directory e = TraceRecord.directory record
                     /\ Entry.command e
                        = Py.join " " (TraceRecord.command record)) es
        /\ map Entry.file es
           = map (OsPath.abspath getcwd) (files atoms)
        /\ (NoDup (map Entry.file es)
            <-> NoDup (map (OsPath.abspath getcwd) (files atoms))))
    /\ (action atoms <> Compile -> es = []).
Proof.
  intros Hp. destruct (action atoms) eqn:Ha.
  - exists (map (entry_of' record) (files atoms)).
    split; [now apply format_record_compile|].
    split; [|congruence]. intros _.
    assert (Hfiles : map Entry.file (map (entry_of' record) (files atoms))
                     = map (OsPath.abspath getcwd) (files atoms))
      by (rewrite map_map; reflexivity).
    split; [apply length_map|].
    split.
    { clear. induction (files atoms); simpl; constructor; auto. }
    split.
    { apply Forall_forall. intros e He.
      apply in_map_iff in He as (operand & <- & _). now split. }
    split; [exact Hfiles | now rewrite Hfiles].
  - exists []. split; [apply (format_record_other _ atoms); congruence|].
    split; [congruence | reflexivity].
  - exists []. split; [apply (format_record_other _ atoms); congruence|].
    split; [congruence | reflexivity].
Qed.

End Pipeline.

Lemma format_record_one_entry_per_operand_witness :
  Example.classify (TraceRecord.command Example.record_two)
  = Return {| action := Compile; files := ["foo.c"] |}
  /\ exists es,
      format_record Example.cwd Example.classify Example.record_two
      = Return es
      /\ List.length es = 1
      /\ map Entry.file es = ["/home/u/foo.c"].
Proof.
  split; [reflexivity|].
  destruct (format_record_one_entry_per_operand Example.cwd Example.classify
              Example.record_two {| action := Compile; files := ["foo.c"] |}
              eq_refl) as (es & Hes & Hcompile & _).
  destruct (Hcompile eq_refl) as (Hlen & _ & _ & Hfiles & _).
  exists es. repeat split; assumption.
Defined.

(** Two different operands of one accepted compilation that name the same
    file give two entries with the same file value. *)
Lemma format_record_equal_files :
  is_compiler_call (TraceRecord.command Example.record_one) = Return true
  /\ Example.classify (TraceRecord.command Example.record_one)
     = Return {| action := Compile; files := ["foo.c"; "./foo.c"] |}
  /\ exists e1 e2,
      format_record Example.cwd Example.classify Example.record_one
      = Return [e1; e2]
      /\ Entry.file e1 = Entry.file e2
      /\ ~ NoDup (map Entry.file [e1; e2]).
Proof.
  split; [reflexivity|]. split; [reflexivity|].
  eexists. eexists. split; [reflexivity|]. split; [reflexivity|].
  intros H. inversion H as [|? ? Hnotin _]; subst. apply Hnotin. now left.
Qed.

(** One trace file, two entries. *)
Lemma collect_two_entries_one_trace :
  List.length (trace_files (Example.listing Example.files_one)
                 Example.scratch) = 1
  /\ exists es,
      Example.collect Example.files_one true = Return (Entries es)
      /\ List.length es = 2
      /\ ~ List.length es <= 1.
Proof.
  split; [reflexivity|]. eexists. split; [reflexivity|].
  split; [reflexivity | simpl; lia].
Qed.

(** Scenario A: a compilation and a directory listing; only the
    compilation gives an entry, and the unfiltered run gives both
    records. *)
Example scenario_A :
  Example.collect Example.files_two true
  = Return (Entries [Entry.Build "/home/u" "/usr/bin/cc -c foo.c -o foo.o"
                       "/home/u/foo.c"])
  /\ Example.collect Example.files_two false
     = Return (Records [Example.record_two;
                        TraceRecord.Build "101" "1" "execve" "/home/u"
                          ["/bin/ls"; "-la"]]).
Proof. split; reflexivity. Qed.

(** A trace that recorded a relative working directory gives entries
    whose directory is that relative path. *)
Lemma entry_directory_relative :
  exists es e,
    Example.collect Example.files_one true = Return (Entries es)
    /\ In e es
    /\ Entry.directory e = "build"
    /\ OsPath.isabs (Entry.directory e) = false.
Proof.
  eexists. eexists. split; [reflexivity|].
  split; [left; reflexivity|]. split; reflexivity.
Qed.

(** ** [main]: a bad trace file aborts the run *)

Section Main.

Variable open_read : string -> result string.
Variable iglob : string -> list string.
Variable getcwd : string.
Variable commands_parse : list string -> result Atoms.
Variable run_build : list string -> string -> result Z.
Variable tmpdir : string.
Variable open_write : string -> result unit.

Local Abbreviation collect' :=
  (collect open_read iglob getcwd commands_parse).
Local Abbreviation main' :=
  (main open_read iglob getcwd commands_parse run_build tmpdir open_write).

(** A bad trace file makes [collect] raise, whatever the filtering. *)
Lemma collect_raises (filtering : bool) (destination filename : string) :
  In filename (trace_files iglob destination) ->
  unreadable open_read filename || too_short open_read filename = true ->
  failed (collect' filtering destination) = true.
Proof.
  intros Hin Hbad. unfold collect.
  assert (Hf : failed (parse open_read filename) = true).
  { rewrite parse_failure_condition. exact Hbad. }
  pose proof (mapM_raises _ _ _ Hin Hf) as Hm.
  destruct (mapM (parse open_read) (trace_files iglob destination));
    [discriminate | reflexivity].
Qed.

(** C6: when one of the discovered trace files is unreadable or has
    fewer than five fields, [main] prints one message and returns the
    non-zero code 127, and writes no database file: the files written
    are those written before. *)
Theorem main_aborts_on_bad_trace (args : Args) (w : World)
  (filename : string) :
  In filename (trace_files iglob tmpdir) ->
  unreadable open_read filename || too_short open_read filename = true ->
  exists message,
    main' args w
    = (127%Z,
       {| stdout := stdout w ++ [message]; written := written w |})
    /\ fst (main' args w) <> 0%Z.
Proof.
  intros Hin Hbad. unfold main.
  destruct (run_build (build args) tmpdir) as [exit_code|e]; simpl.
  - pose proof (collect_raises (negb (filtering args)) _ _ Hin Hbad) as Hc.
    destruct (collect' (negb (filtering args)) tmpdir) as [c|e];
      [discriminate|].
    simpl. exists (str_exn e). split; [reflexivity | discriminate].
  - exists (str_exn e). split; [reflexivity | discriminate].
Qed.

End Main.

Lemma main_aborts_on_bad_trace_witness :
  exists message,
    Example.main [("/tmp/bear-x/cmd.1", "truncated")]
      {| output := "compile_commands.json"; filtering := false;
         build := ["make"] |}
      {| stdout := []; written := [] |}
    = (127%Z, {| stdout := [] ++ [message]; written := [] |})
    /\ fst (Example.main [("/tmp/bear-x/cmd.1", "truncated")]
              {| output := "compile_commands.json"; filtering := false;
                 build := ["make"] |}
              {| stdout := []; written := [] |}) <> 0%Z.
Proof.
  apply (main_aborts_on_bad_trace
           (Example.lookup [("/tmp/bear-x/cmd.1", "truncated")])
           (Example.listing [("/tmp/bear-x/cmd.1", "truncated")])
           Example.cwd Example.classify (fun _ _ => Return 0%Z)
           Example.scratch (fun _ => Return tt)
           {| output := "compile_commands.json"; filtering := false;
              build := ["make"] |}
           {| stdout := []; written := [] |} "/tmp/bear-x/cmd.1");
    [now left | reflexivity].
Defined.

(** ** [os.path.normpath] and [os.path.abspath] *)

Section Normpath.

Import OsPath.

Lemma startswith_slash (s : string) :
  Py.startswith s "/" = true <-> exists x, s = String sep x.
Proof.
  unfold Py.startswith. destruct s as [|a x]; cbn [String.prefix].
  - split; [discriminate | intros [x H]; discriminate].
  - destruct (ascii_dec "/" a) as [<- | Hne].
    + destruct x; (split; [eauto | reflexivity]).
    + split; [discriminate|].
      intros [y H]. inversion H; subst. now contradiction Hne.
Qed.

Lemma last_plain (acc : list string) :
  Forall plain acc -> last acc "" <> "..".
Proof.
  induction acc as [|a acc IH]; simpl; intros H; [discriminate|].
  inversion H as [|? ? Ha Hacc]; subst.
  destruct acc; [apply Ha | now apply IH].
Qed.

Lemma Forall_removelast {A : Type} (P : A -> Prop) (l : list A) :
  Forall P l -> Forall P (removelast l).
Proof.
  induction l as [|a l IH]; simpl; intros H; [constructor|].
  inversion H; subst. destruct l; [constructor|].
  constructor; [assumption | now apply IH].
Qed.

(** On an absolute path the loop keeps its list of components plain. *)
Lemma normpath_step_plain (slashes : nat) (acc : list string)
  (comp : string) :
  slashes <> 0 -> Py.free_of sep comp = true -> Forall plain acc ->
  Forall plain (normpath_step slashes acc comp).
Proof.
  intros Hs Hfree Hacc. unfold normpath_step.
  destruct (String.eqb_spec comp "") as [|H0]; [assumption|].
  destruct (String.eqb_spec comp ".") as [|H1]; [assumption|].
  cbn [orb]. destruct (String.eqb_spec comp "..") as [|H2].
  - apply Nat.eqb_neq in Hs. rewrite Hs. cbn [negb andb orb].
    pose proof (last_plain acc Hacc) as Hl.
    apply String.eqb_neq in Hl. rewrite Hl, andb_false_r.
    destruct (negb (Nat.eqb (List.length acc) 0));
      [now apply Forall_removelast | assumption].
  - cbn [negb orb]. apply Forall_app. split; [assumption|].
    constructor; [now repeat split | constructor].
Qed.

Lemma normpath_fold_plain (slashes : nat) (comps acc : list string) :
  slashes <> 0 ->
  Forall (fun w => Py.free_of sep w = true) comps -> Forall plain acc ->
  Forall plain (fold_left (normpath_step slashes) comps acc).
Proof.
  intros Hs. revert acc.
  induction comps as [|comp comps IH]; simpl; intros acc Hc Hacc;
    [assumption|].
  inversion Hc; subst. apply IH; [assumption|].
  now apply normpath_step_plain.
Qed.

(** A plain component is appended. *)
Lemma normpath_step_append (slashes : nat) (acc : list string)
  (comp : string) :
  plain comp -> normpath_step slashes acc comp = acc ++ [comp].
Proof.
  intros (H0 & H1 & H2 & _). unfold normpath_step.
  apply String.eqb_neq in H0, H1, H2. now rewrite H0, H1, H2.
Qed.

Lemma normpath_fold_append (slashes : nat) (comps acc : list string) :
  Forall plain comps ->
  fold_left (normpath_step slashes) comps acc = acc ++ comps.
Proof.
  revert acc. induction comps as [|comp comps IH]; simpl; intros acc H.
  - now rewrite app_nil_r.
  - inversion H; subst. rewrite normpath_step_append by assumption.
    rewrite IH by assumption. now rewrite <- app_assoc.
Qed.

(** A join of plain components does not start with a slash. *)
Lemma join_plain_start (comps : list string) :
  Forall plain comps -> Py.startswith (Py.join "/" comps) "/" = false.
Proof.
  intros H. destruct (Py.startswith (Py.join "/" comps) "/") eqn:E;
    [|reflexivity].
  apply startswith_slash in E as [x Hx].
  destruct comps as [|w rest]; [discriminate|].
  inversion H as [|? ? (H0 & _ & _ & Hfree) _]; subst.
  destruct w as [|a w]; [contradiction|].
  assert (Ha : a = sep)
    by (unfold Py.join in Hx; simpl in Hx; destruct rest;
        inversion Hx; reflexivity).
  subst a. simpl in Hfree. discriminate.
Qed.

(** The components of a join of plain components, as the loop of
    [normpath] leaves them. *)
Lemma normpath_fold_join (slashes : nat) (comps : list string) :
  Forall plain comps ->
  fold_left (normpath_step slashes) (Py.split sep (Py.join "/" comps)) []
  = comps.
Proof.
  intros H. destruct comps as [|w rest] eqn:E; [reflexivity|].
  rewrite <- E in *. change "/" with (String sep "").
  rewrite split_join.
  - now apply normpath_fold_append.
  - subst; discriminate.
  - eapply Forall_impl; [|exact H]. now intros c (_ & _ & _ & Hc).
Qed.

Lemma startswith_cons (x y : string) :
  Py.startswith (String sep x) (String sep y) = Py.startswith x y.
Proof.
  unfold Py.startswith. cbn [String.prefix].
  destruct (ascii_dec sep sep) as [_ | Hne];
    [reflexivity | now contradiction Hne].
Qed.

Lemma startswith_nil (x : string) : Py.startswith x "" = true.
Proof. now destruct x. Qed.

(** Leading slashes in front of something that starts with none. *)
Lemma initial_slashes_one (x : string) :
  Py.startswith x "/" = false -> initial_slashes (String sep x) = 1.
Proof.
  intros H. unfold initial_slashes.
  change "//" with (String sep "/"). change "/" with (String sep "").
  rewrite !startswith_cons, startswith_nil.
  change (String sep "") with "/". now rewrite H.
Qed.

Lemma initial_slashes_two (x : string) :
  Py.startswith x "/" = false ->
  initial_slashes (String sep (String sep x)) = 2.
Proof.
  intros H. unfold initial_slashes.
  change "///" with (String sep (String sep "/")).
  change "//" with (String sep (String sep "")).
  change "/" with (String sep "").
  rewrite !startswith_cons, !startswith_nil.
  change (String sep "") with "/". now rewrite H.
Qed.

Lemma initial_slashes_abs (path : string) :
  isabs path = true ->
  initial_slashes path = 1 \/ initial_slashes path = 2.
Proof.
  unfold isabs, initial_slashes. intros ->.
  destruct (Py.startswith path "//" && negb (Py.startswith path "///"));
    auto.
Qed.

Lemma split_slash (x : string) :
  Py.split sep (String sep x) = "" :: Py.split sep x.
Proof. cbn [Py.split]. now rewrite Ascii.eqb_refl. Qed.

Lemma normpath_fold_skip (k : nat) (comps : list string) :
  fold_left (normpath_step k) ("" :: comps) []
  = fold_left (normpath_step k) comps [].
Proof. reflexivity. Qed.

(** A path made of one or two slashes and plain components is left as
    it is. *)
Lemma normpath_fixed (k : nat) (comps : list string) :
  k = 1 \/ k = 2 -> Forall plain comps ->
  normpath (Py.repeat_char sep k ++ Py.join "/" comps)
  = (Py.repeat_char sep k ++ Py.join "/" comps)%string.
Proof.
  intros Hk H. pose proof (join_plain_start comps H) as Hstart.
  unfold normpath. destruct Hk as [-> | ->]; cbn [Py.repeat_char append].
  - rewrite (initial_slashes_one _ Hstart). cbn [String.eqb].
    rewrite split_slash, normpath_fold_skip.
    rewrite (normpath_fold_join 1 comps H). reflexivity.
  - rewrite (initial_slashes_two _ Hstart). cbn [String.eqb].
    rewrite !split_slash, !normpath_fold_skip.
    rewrite (normpath_fold_join 2 comps H). reflexivity.
Qed.

(** The shape of a normalised absolute path. *)
Lemma normpath_abs_shape (path : string) :
  isabs path = true ->
  exists k comps,
    (k = 1 \/ k = 2) /\ Forall plain comps
    /\ normpath path
       = (Py.repeat_char sep k ++ Py.join "/" comps)%string.
Proof.
  intros Habs. pose proof (initial_slashes_abs path Habs) as Hk.
  exists (initial_slashes path),
    (fold_left (normpath_step (initial_slashes path))
       (Py.split sep path) []).
  split; [exact Hk|]. split.
  - apply normpath_fold_plain;
      [destruct Hk as [-> | ->]; discriminate
      | apply split_fields_free | constructor].
  - unfold normpath.
    destruct (String.eqb_spec path "") as [-> | _]; [discriminate Habs|].
    cbv zeta. destruct Hk as [-> | ->]; reflexivity.
Qed.

(** [normpath] maps absolute paths to absolute paths that it leaves
    unchanged. *)
Lemma normpath_abs (path : string) :
  isabs path = true ->
  isabs (normpath path) = true /\ normpath (normpath path) = normpath path.
Proof.
  intros Habs.
  destruct (normpath_abs_shape path Habs) as (k & comps & Hk & Hc & ->).
  split; [|now apply normpath_fixed].
  apply startswith_slash.
  destruct Hk as [-> | ->]; eexists; reflexivity.
Qed.

Lemma isabs_append (a b : string) :
  isabs a = true -> isabs (a ++ b) = true.
Proof.
  unfold isabs. intros H. apply startswith_slash in H as [x ->].
  apply startswith_slash. now exists (x ++ b)%string.
Qed.

(** With an absolute working directory, [abspath] gives an absolute
    path that [normpath] leaves unchanged. *)
Lemma abspath_abs_normalized (cwd path : string) :
  isabs cwd = true ->
  isabs (abspath cwd path) = true
  /\ normpath (abspath cwd path) = abspath cwd path.
Proof.
  intros Hcwd. unfold abspath. apply normpath_abs.
  destruct (isabs path) eqn:Hp; [exact Hp|].
  unfold join. unfold isabs in Hp. rewrite Hp.
  destruct ((cwd =? "")%string || Py.endswith_char cwd sep);
    now apply isabs_append.
Qed.

End Normpath.

(** ** The file value of an entry *)

Section EntryFile.

Variable open_read : string -> result string.
Variable iglob : string -> list string.
Variable getcwd : string.
Variable commands_parse : list string -> result Atoms.

(** The file values [format_record] yields do not depend on the working
    directory the record carries. *)
Lemma format_record_file_ignores_directory (r r' : TraceRecord.t) :
  TraceRecord.command r = TraceRecord.command r' ->
  match format_record getcwd commands_parse r,
        format_record getcwd commands_parse r' with
  | Return es, Return es' => map Entry.file es = map Entry.file es'
  | Raise e, Raise e' => e = e'
  | _, _ => False
  end.
Proof.
  intros Hc. unfold format_record. rewrite <- Hc.
  destruct (commands_parse (TraceRecord.command r)) as [atoms|];
    [|reflexivity].
  simpl. destruct (Action_eqb (action atoms) Compile); [|reflexivity].
  now rewrite !map_map.
Qed.

End EntryFile.

(** ** More on the compiler filter *)

Section FilterLanguage.

Import Re.

Lemma lang_lit (w s : string) : lang (lit w) s <-> s = w.
Proof.
  revert s. induction w as [|a w IH]; simpl; intros s; split; intros H.
  - now inversion H.
  - subst. constructor.
  - inversion H; subst.
    match goal with
    | H1 : lang (Chr _) _, H2 : lang (lit _) _ |- _ =>
        inversion H1; subst; apply IH in H2; subst
    end.
    reflexivity.
  - subst. change (String a w) with (String a "" ++ w)%string.
    constructor; [constructor | now apply IH].
Qed.

(** The language of a starred expression is closed under appending. *)
Lemma lang_star_app (r : regex) (u v : string) :
  lang (Star r) u -> lang (Star r) v -> lang (Star r) (u ++ v).
Proof.
  intros Hu Hv. remember (Star r) as sr eqn:E.
  induction Hu as [| | | | | | | | |r' a s1 s2 H1 _ H2 IH2| |];
    try discriminate; [assumption|].
  inversion E; subst. rewrite append_assoc.
  constructor; [assumption | now apply IH2].
Qed.

Lemma lang_star_one (r : regex) (s : string) :
  lang r s -> lang (Star r) s.
Proof.
  intros H. destruct s as [|a s]; [constructor|].
  rewrite <- (append_nil_r (String a s)).
  apply lang_star_cons; [assumption | constructor].
Qed.

(** One directory: characters other than a slash, then a slash. *)
Lemma lang_dir (w : string) :
  Py.free_of "/" w = true ->
  lang (Cat (Star (NotChr "/")) (Chr "/")) (w ++ "/").
Proof.
  intros H. constructor; [|constructor].
  induction w as [|a w IH]; [constructor|].
  simpl in H. apply andb_prop in H as [Ha Hw].
  apply negb_true_iff, Ascii.eqb_neq in Ha.
  change (String a w) with (String a "" ++ w)%string.
  constructor; [now constructor | now apply IH].
Qed.

(** Whatever ends with a slash is a sequence of directories. *)
Lemma lang_dirs_slash (p w : string) :
  Py.free_of "/" w = true -> lang dirs (w ++ p ++ "/").
Proof.
  revert w. induction p as [|a p IH]; intros w Hw.
  - simpl. apply lang_star_one. now apply lang_dir.
  - destruct (Ascii.eqb a "/") eqn:E.
    + apply Ascii.eqb_eq in E; subst a.
      change (w ++ String "/" p ++ "/")%string
        with (w ++ String "/" (p ++ "/"))%string.
      replace (w ++ String "/" (p ++ "/"))%string
        with ((w ++ "/") ++ ("" ++ p ++ "/"))%string
        by (rewrite append_assoc; reflexivity).
      apply lang_star_app; [|now apply (IH "")].
      apply lang_star_one. now apply lang_dir.
    + replace (w ++ String a p ++ "/")%string
        with ((w ++ String a "") ++ p ++ "/")%string
        by (rewrite append_assoc; reflexivity).
      apply IH. clear IH. induction w as [|b w IHw]; simpl in *.
      * now rewrite E.
      * apply andb_prop in Hw as [Hb Hw]. rewrite Hb. now apply IHw.
Qed.

(** A directory prefix in front of a word of [dirs body]. *)
Lemma lang_dirs_prefix (b : regex) (p s : string) :
  lang (Cat dirs b) s -> lang (Cat dirs b) (p ++ "/" ++ s).
Proof.
  intros H. inversion H; subst.
  match goal with
  | |- lang _ (p ++ "/" ++ ?s1 ++ ?s2) =>
      replace (p ++ "/" ++ s1 ++ s2)%string
        with (((p ++ "/") ++ s1) ++ s2)%string
        by (now rewrite !append_assoc)
  end.
  constructor; [|assumption].
  apply lang_star_app; [|assumption].
  now apply (lang_dirs_slash p "").
Qed.

Lemma match_dirs_prefix (b : regex) (p s : string) :
  match_ (Anchored (Cat dirs b)) s = true ->
  match_ (Anchored (Cat dirs b)) (p ++ "/" ++ s) = true.
Proof.
  rewrite !match_lang. cbn [body]. intros [H | (x & -> & H)].
  - left. now apply lang_dirs_prefix.
  - right. exists (p ++ "/" ++ x)%string.
    split; [now rewrite !append_assoc | now apply lang_dirs_prefix].
Qed.

End FilterLanguage.

Lemma known_compiler_cons (executable : string) (args : list string) :
  known_compiler (executable :: args)
  = Return (existsb (fun pattern => Re.match_ pattern executable)
              compiler_patterns).
Proof. reflexivity. Qed.

(** X1: an executable that [known_compiler] accepts is still accepted
    with any directory prefix put in front of it: the patterns all start
    with an arbitrary sequence of directories. *)
Theorem known_compiler_any_directory (prefix executable : string)
  (args : list string) :
  known_compiler (executable :: args) = Return true ->
  known_compiler ((prefix ++ "/" ++ executable)%string :: args)
  = Return true.
Proof.
  rewrite !known_compiler_cons. intros H0.
  assert (H : existsb (fun pattern => Re.match_ pattern executable)
                compiler_patterns = true) by congruence.
  clear H0. f_equal.
  apply existsb_exists in H as (p & Hin & Hm).
  apply existsb_exists. exists p. split; [exact Hin|].
  unfold compiler_patterns in Hin.
  destruct Hin as [<- | [<- | [<- | [<- | []]]]];
    now apply match_dirs_prefix.
Qed.

Lemma known_compiler_any_directory_witness :
  known_compiler ["g++-4.8"; "-c"; "a.cc"] = Return true
  /\ known_compiler ["/opt/cross tools/bin/g++-4.8"; "-c"; "a.cc"]
     = Return true.
Proof.
  split; [reflexivity|].
  apply (known_compiler_any_directory "/opt/cross tools/bin" "g++-4.8"
           ["-c"; "a.cc"]).
  reflexivity.
Defined.

(** X2: [cancel_parameter] holds exactly when one of the arguments after
    the executable is [-cc1], or [-cc1] followed by one newline (which the
    final [$] of the pattern lets through); the executable itself is not
    looked at. *)
Theorem cancel_parameter_iff (command : list string) :
  cancel_parameter command = true
  <-> exists arg,
      In arg (tl command)
      /\ (arg = "-cc1" \/ arg = ("-cc1" ++ String Re.newline "")%string).
Proof.
  unfold cancel_parameter, cancel_patterns, Py.from_second.
  cbn [existsb]. rewrite orb_false_r, existsb_exists.
  split; intros (arg & Hin & H); exists arg; (split; [exact Hin|]).
  - apply match_lang in H as [H | (x & -> & H)]; cbn [Re.body] in H;
      apply lang_lit in H; subst; auto.
  - apply match_lang. cbn [Re.body].
    destruct H as [-> | ->]; [left | right; exists "-cc1"; split; auto];
      now apply lang_lit.
Qed.

(** ** More on the parser *)

(** A separator in the middle: the fields before it, then those after. *)
Lemma split_middle (c : ascii) (x y : string) :
  Py.split c (x ++ String c y) = Py.split c x ++ Py.split c y.
Proof.
  induction x as [|a x IH]; simpl.
  - now rewrite Ascii.eqb_refl.
  - destruct (Ascii.eqb a c); rewrite IH; [reflexivity|].
    pose proof (split_not_nil c x) as Hne.
    destruct (Py.split c x); [contradiction | reflexivity].
Qed.

Lemma free_of_app (c : ascii) (x y : string) :
  Py.free_of c (x ++ y) = Py.free_of c x && Py.free_of c y.
Proof.
  induction x as [|a x IH]; simpl; [reflexivity|].
  now rewrite IH, andb_assoc.
Qed.

(** The fields of a string without [c] are without [c]. *)
Lemma free_of_split (c sep : ascii) (s : string) :
  Py.free_of c s = true ->
  Forall (fun w => Py.free_of c w = true) (Py.split sep s).
Proof.
  induction s as [|a s IH]; simpl; intros H.
  - constructor; [reflexivity | constructor].
  - apply andb_prop in H as [Ha Hs]. specialize (IH Hs).
    destruct (Ascii.eqb a sep).
    + constructor; [reflexivity | exact IH].
    + destruct (Py.split sep s) as [|w ws].
      * constructor; [simpl; now rewrite Ha | constructor].
      * inversion IH; subst.
        constructor; [simpl; rewrite Ha; assumption | assumption].
Qed.

(** Only the split of a separator-free string has a single field. *)
Lemma removelast_split_nil (c : ascii) (s : string) :
  removelast (Py.split c s) = [] <-> Py.free_of c s = true.
Proof.
  split; [|intros H; now rewrite (split_free _ _ H)].
  induction s as [|a s IH]; simpl; [reflexivity|].
  pose proof (split_not_nil c s) as Hne.
  destruct (Ascii.eqb a c); simpl.
  - destruct (Py.split c s); [contradiction | discriminate].
  - destruct (Py.split c s) as [|w ws]; [contradiction|].
    destruct ws; [|discriminate]. intros _. now apply IH.
Qed.

(** The arguments, each closed by its unit separator, split back. *)
Lemma split_terminated_args (c : ascii) (args : list string) :
  Forall (fun a => Py.free_of c a = true) args ->
  Py.split c (String.concat "" (map (fun a => (a ++ String c "")%string) args))
  = args ++ [""].
Proof.
  induction args as [|a args IH]; intros H; [reflexivity|].
  inversion H as [|? ? Ha Hargs]; subst. specialize (IH Hargs).
  cbn [map]. destruct args as [|b args'].
  - cbn [map String.concat]. rewrite split_middle, (split_free _ _ Ha).
    reflexivity.
  - change (String.concat "" ((a ++ String c "")%string
                              :: map (fun a => (a ++ String c "")%string)
                                   (b :: args')))
      with ((a ++ String c "") ++ ""
            ++ String.concat ""
                 (map (fun a => (a ++ String c "")%string) (b :: args')))%string.
    cbn [append]. rewrite append_assoc. cbn [append].
    rewrite split_middle, (split_free _ _ Ha), IH. reflexivity.
Qed.

Lemma free_of_terminated_args (c d : ascii) (args : list string) :
  Ascii.eqb d c = false ->
  Forall (fun a => Py.free_of c a = true) args ->
  Py.free_of c
    (String.concat "" (map (fun a => (a ++ String d "")%string) args))
  = true.
Proof.
  intros Hd. induction args as [|a args IH]; intros H; [reflexivity|].
  inversion H as [|? ? Ha Hargs]; subst. specialize (IH Hargs).
  assert (Hone : Py.free_of c (a ++ String d "") = true)
    by (rewrite free_of_app, Ha; simpl; now rewrite Hd).
  cbn [map]. destruct args as [|b args']; [exact Hone|].
  change (String.concat "" ((a ++ String d "")%string
                            :: map (fun a => (a ++ String d "")%string)
                                 (b :: args')))
    with ((a ++ String d "") ++ ""
          ++ String.concat ""
               (map (fun a => (a ++ String d "")%string) (b :: args')))%string.
  cbn [append]. now rewrite free_of_app, Hone, IH.
Qed.

Section ParserExtras.

Variable open_read : string -> result string.

(** X3: [parse] never looks past the fifth field: a readable file with at
    least five fields parses to the same record when a record separator
    and anything else is added at its end. *)
Theorem parse_ignores_extra_fields
  (open_read' : string -> result string)
  (filename filename' content extra : string) :
  open_read filename = Return content ->
  5 <= List.length (Py.split RS content) ->
  open_read' filename' = Return (content ++ String RS extra)%string ->
  parse open_read' filename' = parse open_read filename.
Proof.
  intros Ho Hlen Ho'.
  destruct (five_fields _ Hlen) as (f0 & f1 & f2 & f3 & f4 & rest & Hs).
  rewrite (parse_fields open_read _ _ _ _ _ _ _ _ Ho Hs).
  apply parse_fields
    with (content := (content ++ String RS extra)%string)
         (rest := rest ++ Py.split RS extra); [exact Ho'|].
  now rewrite split_middle, Hs.
Qed.

(** X4: in a parsed record no field holds a record separator, and no
    argument holds a unit separator or a record separator. *)
Theorem parse_fields_separator_free (filename : string)
  (record : TraceRecord.t) :
  parse open_read filename = Return record ->
  Py.free_of RS (TraceRecord.pid record) = true
  /\ Py.free_of RS (TraceRecord.ppid record) = true
  /\ Py.free_of RS (TraceRecord.function record) = true
  /\ Py.free_of RS (TraceRecord.directory record) = true
  /\ Forall (fun arg => Py.free_of US arg = true
                        /\ Py.free_of RS arg = true)
       (TraceRecord.command record).
Proof.
  unfold parse. intros H.
  destruct (open_read filename) as [content|]; [|discriminate].
  simpl in H. pose proof (split_fields_free RS content) as Hfree.
  destruct (Py.split RS content) as [|f0 [|f1 [|f2 [|f3 [|f4 rest]]]]];
    try discriminate.
  simpl in H. inversion H; subst; clear H. cbn.
  inversion Hfree as [|? ? H0 Hfree1]; subst.
  inversion Hfree1 as [|? ? H1 Hfree2]; subst.
  inversion Hfree2 as [|? ? H2 Hfree3]; subst.
  inversion Hfree3 as [|? ? H3 Hfree4]; subst.
  inversion Hfree4 as [|? ? H4 _]; subst.
  repeat (split; [assumption|]).
  apply Forall_removelast.
  pose proof (split_fields_free US f4) as HU.
  pose proof (free_of_split RS US f4 H4) as HR.
  apply Forall_forall. intros arg Harg.
  rewrite Forall_forall in HU, HR. auto.
Qed.

(** X5: the parsed argument vector is empty exactly when the fifth field
    holds no unit separator (in particular when it is empty). *)
Theorem parse_command_empty_iff
  (filename content f0 f1 f2 f3 f4 : string) (rest : list string) :
  open_read filename = Return content ->
  Py.split RS content = f0 :: f1 :: f2 :: f3 :: f4 :: rest ->
  exists record,
    parse open_read filename = Return record
    /\ (TraceRecord.command record = [] <-> Py.free_of US f4 = true).
Proof.
  intros Ho Hs. eexists. split; [exact (parse_fields _ _ _ _ _ _ _ _ _ Ho Hs)|].
  cbn [TraceRecord.command]. apply removelast_split_nil.
Qed.

(** A text made of four fields without record separator, each followed
    by a record separator, and then of arguments without record or unit
    separator, each followed by a unit separator, parses to exactly these
    fields and arguments. *)
Lemma parse_written_text (filename pid ppid fn cwd : string)
  (args : list string) :
  Py.free_of RS pid = true -> Py.free_of RS ppid = true ->
  Py.free_of RS fn = true -> Py.free_of RS cwd = true ->
  Forall (fun arg => Py.free_of US arg = true) args ->
  Forall (fun arg => Py.free_of RS arg = true) args ->
  open_read filename
  = Return (pid ++ String RS (ppid ++ String RS (fn ++ String RS
              (cwd ++ String RS
                 (String.concat ""
                    (map (fun a => (a ++ String US "")%string) args))))))
      %string ->
  parse open_read filename = Return (TraceRecord.Build pid ppid fn cwd args).
Proof.
  intros Hpid Hppid Hfn Hcwd HU HR Ho.
  pose proof (free_of_terminated_args RS US args eq_refl HR) as Hf4.
  rewrite (parse_fields open_read _ _ pid ppid fn cwd
             (String.concat ""
                (map (fun a => (a ++ String US "")%string) args)) [] Ho).
  - unfold Py.drop_last.
    now rewrite (split_terminated_args US args HU), removelast_last.
  - rewrite !split_middle.
    rewrite (split_free _ _ Hpid), (split_free _ _ Hppid),
      (split_free _ _ Hfn), (split_free _ _ Hcwd), (split_free _ _ Hf4).
    reflexivity.
Qed.

End ParserExtras.

Lemma parse_ignores_extra_fields_witness :
  parse (Example.lookup
           [("/tmp/bear-x/cmd.9",
             (Example.trace "100" "1" "execve" "/home/u" ["cc"; "-c"; "a.c"]
              ++ String RS "left over")%string)])
    "/tmp/bear-x/cmd.9"
  = parse (Example.lookup
             [("/tmp/bear-x/cmd.1",
               Example.trace "100" "1" "execve" "/home/u"
                 ["cc"; "-c"; "a.c"])])
      "/tmp/bear-x/cmd.1".
Proof.
  apply (parse_ignores_extra_fields _ _ _ _
           (Example.trace "100" "1" "execve" "/home/u" ["cc"; "-c"; "a.c"])
           "left over");
    [reflexivity | vm_compute; lia | reflexivity].
Defined.

Lemma parse_fields_separator_free_witness :
  Forall (fun arg => Py.free_of US arg = true /\ Py.free_of RS arg = true)
    (TraceRecord.command Example.record_two).
Proof.
  apply (parse_fields_separator_free (Example.lookup Example.files_two)
           "/tmp/bear-x/cmd.1" Example.record_two eq_refl).
Defined.

Lemma parse_command_empty_iff_witness :
  exists record,
    parse (Example.lookup Example.files_noargs) "/tmp/bear-x/cmd.1"
    = Return record
    /\ (TraceRecord.command record = [] <-> Py.free_of US "" = true).
Proof.
  apply (parse_command_empty_iff (Example.lookup Example.files_noargs)
           "/tmp/bear-x/cmd.1"
           (Example.trace "100" "1" "execve" "/home/u" [])
           "100" "1" "execve" "/home/u" "" []); reflexivity.
Defined.

(** ** More on the collection *)

Section TraversalsMore.

Context {A B : Type}.

(** The exception of a comprehension is that of its first failing
    element. *)
Lemma mapM_first_error (f : A -> result B) (before after : list A) (a : A)
  (e : exn) :
  (forall x, In x before -> failed (f x) = false) ->
  f a = Raise e ->
  mapM f (before ++ a :: after) = Raise e.
Proof.
  induction before as [|x before IH]; simpl; intros Hb Ha.
  - now rewrite Ha.
  - pose proof (Hb x (or_introl eq_refl)) as Hx.
    destruct (f x); [|discriminate]. simpl.
    rewrite IH; [reflexivity | auto | assumption].
Qed.

Lemma mapM_Forall2 (f : A -> result B) (l : list A) (bs : list B) :
  mapM f l = Return bs <-> Forall2 (fun a b => f a = Return b) l bs.
Proof.
  revert bs. induction l as [|a l IH]; simpl; intros bs.
  - split; intros H; [inversion H; constructor | now inversion H].
  - split; intros H.
    + destruct (f a) as [b|] eqn:Ea; [|discriminate]. simpl in H.
      destruct (mapM f l) as [bs'|]; [|discriminate].
      inversion H; subst. constructor; [assumption | now apply IH].
    + inversion H as [|? b ? bs' Hb Hrest]; subst. rewrite Hb. simpl.
      apply IH in Hrest. now rewrite Hrest.
Qed.

Lemma flatMapM_app (f : A -> result (list B)) (l1 l2 : list A) :
  flatMapM f (l1 ++ l2)
  = (xs <- flatMapM f l1 ;; ys <- flatMapM f l2 ;; Return (xs ++ ys)).
Proof.
  induction l1 as [|a l1 IH]; simpl.
  - now destruct (flatMapM f l2).
  - destruct (f a) as [bs|]; [|reflexivity]. simpl. rewrite IH.
    destruct (flatMapM f l1) as [xs|]; [|reflexivity]. simpl.
    destruct (flatMapM f l2) as [ys|]; [|reflexivity]. simpl.
    now rewrite app_assoc.
Qed.

Lemma flatMapM_raises (f : A -> result (list B)) (l : list A) (a : A) :
  In a l -> failed (f a) = true -> failed (flatMapM f l) = true.
Proof.
  induction l as [|x l IH]; simpl; intros Hin Ha; [contradiction|].
  destruct (f x) eqn:Ex; [|reflexivity]. simpl.
  destruct Hin as [-> | Hin]; [rewrite Ex in Ha; discriminate|].
  specialize (IH Hin Ha). destruct (flatMapM f l); [discriminate | reflexivity].
Qed.

Lemma flatMapM_nil (f : A -> result (list B)) (l : list A) :
  (forall a, In a l -> f a = Return []) -> flatMapM f l = Return [].
Proof.
  induction l as [|a l IH]; simpl; intros H; [reflexivity|].
  rewrite (H a (or_introl eq_refl)). simpl. rewrite IH; [reflexivity | auto].
Qed.

End TraversalsMore.

Section CollectExtras.

Variable open_read : string -> result string.
Variable iglob : string -> list string.
Variable getcwd : string.
Variable commands_parse : list string -> result Atoms.

Local Abbreviation collect' :=
  (collect open_read iglob getcwd commands_parse).
Local Abbreviation chain' := (chain getcwd commands_parse).

(** X7: with or without filtering, when a trace file cannot be parsed,
    [collect] raises the exception of the first such file in discovery
    order: every file is parsed before any record is filtered or
    classified. *)
Theorem collect_first_parse_error (filtering : bool)
  (destination filename : string) (before after : list string) (e : exn) :
  trace_files iglob destination = before ++ filename :: after ->
  (forall f, In f before -> failed (parse open_read f) = false) ->
  parse open_read filename = Raise e ->
  collect' filtering destination = Raise e.
Proof.
  intros Hfiles Hbefore Hf. unfold collect. rewrite Hfiles.
  now rewrite (mapM_first_error _ _ _ _ _ Hbefore Hf).
Qed.

(** X8: without filtering, [collect] returns a list of records exactly
    when it holds, in discovery order, the parsed record of each trace
    file. *)
Theorem collect_unfiltered_iff (destination : string)
  (records : list TraceRecord.t) :
  collect' false destination = Return (Records records)
  <-> Forall2 (fun f r => parse open_read f = Return r)
        (trace_files iglob destination) records.
Proof.
  unfold collect. rewrite <- mapM_Forall2.
  destruct (mapM (parse open_read) (trace_files iglob destination));
    simpl; split; intros H; congruence.
Qed.

(** X9: the chain of filter and formatter works record by record: on two
    lists of records put end to end it yields the entries of the first
    followed by those of the second, and raises what the first raises,
    else what the second raises. *)
Theorem chain_app (records1 records2 : list TraceRecord.t) :
  chain' (records1 ++ records2)
  = (es1 <- chain' records1 ;;
     es2 <- chain' records2 ;;
     Return (es1 ++ es2)).
Proof. unfold chain. apply flatMapM_app. Qed.

(** X10: records whose executable is not a known compiler, or that carry
    a cancelling argument, are dropped without the classifier being
    asked: the chain yields no entry whatever the classifier would do,
    even if it would raise. *)
Theorem chain_drops_rejected (records : list TraceRecord.t) :
  (forall r, In r records ->
             is_compiler_call (TraceRecord.command r) = Return false) ->
  chain' records = Return [].
Proof.
  intros H. unfold chain. apply flatMapM_nil. intros r Hr.
  unfold general_filter. now rewrite (H r Hr).
Qed.

(** X11: every entry of a filtered collection comes from a trace file
    whose argument vector has a known compiler as executable and no
    [-cc1] after it; its command is that vector joined by single
    spaces. *)
Theorem collect_entry_from_compiler (destination : string)
  (es : list Entry.t) (e : Entry.t) :
  collect' true destination = Return (Entries es) -> In e es ->
  exists filename record,
    In filename (trace_files iglob destination)
    /\ parse open_read filename = Return record
    /\ known_compiler (TraceRecord.command record) = Return true
    /\ ~ In "-cc1" (tl (TraceRecord.command record))
    /\ Entry.command e = join_command (TraceRecord.command record).
Proof.
  intros H Hin.
  destruct (collect_entry_inv _ _ _ _ _ _ _ H Hin)
    as (filename & record & atoms & operand & Hf & Hp & Hc & _ & _ & _ & ->).
  exists filename, record. split; [exact Hf|]. split; [exact Hp|].
  unfold is_compiler_call in Hc.
  destruct (TraceRecord.command record) as [|executable args] eqn:Ecmd;
    [discriminate|].
  destruct (known_compiler (executable :: args)) as [[|]|] eqn:Ek;
    simpl in Hc; try discriminate.
  split; [reflexivity|]. split; [|now rewrite <- Ecmd].
  intros Hcc. simpl in Hcc.
  rewrite (cancel_parameter_token executable args Hcc) in Hc.
  discriminate.
Qed.

(** X12: when every trace file parses and one of them has a fifth field
    without unit separator, the filtered collection raises, while the
    unfiltered one returns. *)
Theorem collect_filtered_fails_on_empty_vector
  (destination filename content f0 f1 f2 f3 f4 : string)
  (rest : list string) :
  (forall f, In f (trace_files iglob destination) ->
             failed (parse open_read f) = false) ->
  In filename (trace_files iglob destination) ->
  open_read filename = Return content ->
  Py.split RS content = f0 :: f1 :: f2 :: f3 :: f4 :: rest ->
  Py.free_of US f4 = true ->
  failed (collect' true destination) = true
  /\ failed (collect' false destination) = false.
Proof.
  intros Hall Hin Ho Hs Hfree. unfold collect.
  destruct (mapM_total _ _ Hall) as [records Hrecords].
  rewrite Hrecords. simpl. split; [|reflexivity].
  pose proof (parse_fields _ _ _ _ _ _ _ _ _ Ho Hs) as Hp.
  assert (Hr : In (TraceRecord.Build f0 f1 f2 f3 []) records).
  { apply mapM_Forall2 in Hrecords.
    clear Hall. revert Hin. induction Hrecords as [|f r fs rs Hfr _ IH];
      simpl; [contradiction|].
    intros [-> | Hin']; [|right; now apply IH].
    left. rewrite Hp in Hfr. inversion Hfr. unfold Py.drop_last.
    now rewrite (proj2 (removelast_split_nil US f4) Hfree). }
  pose proof (flatMapM_raises
                (fun record =>
                   kept <- general_filter record ;;
                   flatMapM (format_record getcwd commands_parse) kept)
                records _ Hr eq_refl) as Hc.
  unfold chain.
  destruct (flatMapM _ records); [discriminate | reflexivity].
Qed.

End CollectExtras.

Lemma collect_first_parse_error_witness :
  Example.collect
    [("/tmp/bear-x/cmd.1",
      Example.trace "100" "1" "execve" "/home/u" ["cc"; "-c"; "a.c"]);
     ("/tmp/bear-x/cmd.2", "truncated");
     ("/tmp/bear-x/cmd.3", "")] true
  = Raise IndexError.
Proof.
  apply (collect_first_parse_error _ _ _ _ true Example.scratch
           "/tmp/bear-x/cmd.2" ["/tmp/bear-x/cmd.1"] ["/tmp/bear-x/cmd.3"]).
  - reflexivity.
  - intros f [<- | []]. reflexivity.
  - reflexivity.
Defined.

Lemma chain_drops_rejected_witness :
  chain Example.cwd (fun _ => Raise (ExternalError "unsupported"))
    [TraceRecord.Build "101" "1" "execve" "/home/u" ["/bin/ls"; "-la"];
     TraceRecord.Build "102" "1" "execve" "/home/u" ["gcc"; "-cc1"; "a.c"]]
  = Return [].
Proof.
  apply chain_drops_rejected.
  intros r [<- | [<- | []]]; reflexivity.
Defined.

Lemma collect_entry_from_compiler_witness :
  exists filename record,
    In filename (trace_files (Example.listing Example.files_two)
                   Example.scratch)
    /\ parse (Example.lookup Example.files_two) filename = Return record
    /\ known_compiler (TraceRecord.command record) = Return true
    /\ ~ In "-cc1" (tl (TraceRecord.command record))
    /\ "/usr/bin/cc -c foo.c -o foo.o"
       = join_command (TraceRecord.command record).
Proof.
  apply (collect_entry_from_compiler (Example.lookup Example.files_two)
           (Example.listing Example.files_two) Example.cwd Example.classify
           Example.scratch
           [entry_of Example.cwd Example.record_two "foo.c"]
           (entry_of Example.cwd Example.record_two "foo.c"));
    [reflexivity | now left].
Defined.

Lemma collect_filtered_fails_on_empty_vector_witness :
  failed (Example.collect Example.files_noargs true) = true
  /\ failed (Example.collect Example.files_noargs false) = false.
Proof.
  apply (collect_filtered_fails_on_empty_vector
           (Example.lookup Example.files_noargs)
           (Example.listing Example.files_noargs) Example.cwd
           Example.classify Example.scratch "/tmp/bear-x/cmd.1"
           (Example.trace "100" "1" "execve" "/home/u" [])
           "100" "1" "execve" "/home/u" "" []).
  - intros f [<- | []]. reflexivity.
  - now left.
  - reflexivity.
  - reflexivity.
  - reflexivity.
Defined.

(** ** The command string *)

(** X13: [join_command] loses the boundaries of the arguments: two
    neighbouring arguments give the same command string as the single
    argument made of both with a space between them. *)
Theorem join_command_merges (a b : string) (rest : list string) :
  join_command (a :: b :: rest)
  = join_command ((a ++ " " ++ b)%string :: rest).
Proof.
  unfold join_command, Py.join.
  destruct rest as [|c rest]; cbn [String.concat]; [reflexivity|].
  rewrite !append_assoc. reflexivity.
Qed.

(** ** The environment of the build *)

Lemma get_update_same (d : Dict.t) (key : string) (value : option string) :
  Dict.get (Dict.update d key value) key = Some value.
Proof.
  induction d as [|[k v] d IH]; simpl.
  - now rewrite String.eqb_refl.
  - destruct (String.eqb_spec k key) as [-> | Hne]; simpl.
    + now rewrite String.eqb_refl.
    + apply String.eqb_neq in Hne. now rewrite Hne.
Qed.

Lemma get_update_other (d : Dict.t) (key key' : string)
  (value : option string) :
  key <> key' ->
  Dict.get (Dict.update d key value) key' = Dict.get d key'.
Proof.
  intros Hne. induction d as [|[k v] d IH]; simpl.
  - apply String.eqb_neq in Hne. now rewrite Hne.
  - destruct (String.eqb_spec k key) as [-> | Hk]; simpl.
    + apply String.eqb_neq in Hne. now rewrite Hne.
    + now rewrite IH.
Qed.

(** X14: in the environment [run_build] prepares, [BEAR_OUTPUT] is the
    scratch directory and the preload variable of the platform is the
    first library found, or [None] when none was found; what the caller
    had in these variables is replaced.  On Darwin the flat-namespace
    variable is ["1"]. *)
Theorem run_build_environment_sets (p : platform) (environ : Dict.t)
  (candidates : list string) (destination : string) :
  let environment := run_build_environment p environ candidates destination in
  Dict.get environment "BEAR_OUTPUT" = Some (Some destination)
  /\ Dict.get environment
       (match p with
        | Darwin => "DYLD_INSERT_LIBRARIES"
        | NotDarwin => "LD_PRELOAD"
        end)
     = Some (get_ear_so_file candidates)
  /\ match p with
     | Darwin =>
         Dict.get environment "DYLD_FORCE_FLAT_NAMESPACE" = Some (Some "1")
     | NotDarwin =>
         Dict.get environment "DYLD_FORCE_FLAT_NAMESPACE"
         = Dict.get environ "DYLD_FORCE_FLAT_NAMESPACE"
     end.
Proof.
  destruct p; cbv zeta; unfold run_build_environment, ENVIRONMENTS;
    cbn [fold_left environment_step String.eqb Ascii.eqb Bool.eqb];
    repeat split;
    repeat first [ rewrite get_update_same
                 | rewrite get_update_other by discriminate ];
    reflexivity.
Qed.

(** X15: every other variable of the caller's environment reaches the
    build unchanged. *)
Theorem run_build_environment_keeps (p : platform) (environ : Dict.t)
  (candidates : list string) (destination key : string) :
  ~ In key (map snd (ENVIRONMENTS p)) ->
  Dict.get (run_build_environment p environ candidates destination) key
  = Dict.get environ key.
Proof.
  intros Hkey. unfold run_build_environment.
  revert environ. induction (ENVIRONMENTS p) as [|[alias k] l IH];
    intros environ; simpl; [reflexivity|].
  rewrite IH by (intros H; apply Hkey; now right).
  apply get_update_other. intros ->. apply Hkey. now left.
Qed.

Lemma run_build_environment_keeps_witness :
  Dict.get (run_build_environment NotDarwin
              [("PATH", Some "/usr/bin"); ("LD_PRELOAD", Some "libx.so")]
              ["/lib/ear.so"] "/tmp/bear-x") "PATH"
  = Some (Some "/usr/bin").
Proof.
  apply (run_build_environment_keeps NotDarwin
           [("PATH", Some "/usr/bin"); ("LD_PRELOAD", Some "libx.so")]
           ["/lib/ear.so"] "/tmp/bear-x" "PATH").
  simpl. intros [H | [H | []]]; discriminate.
Defined.

(** ** More on [main] *)

Section MainExtras.

Variable open_read : string -> result string.
Variable iglob : string -> list string.
Variable getcwd : string.
Variable commands_parse : list string -> result Atoms.
Variable run_build : list string -> string -> result Z.
Variable tmpdir : string.
Variable open_write : string -> result unit.

Local Abbreviation main' :=
  (main open_read iglob getcwd commands_parse run_build tmpdir open_write).

(** X16: with [--disable-filter], when the build could be started, every
    trace file parses and the output can be opened, [main] returns the
    exit code of the build, whatever it is, prints nothing, and writes
    to the output file the parsed records of the trace files in
    discovery order; the classifier is not consulted. *)
Theorem main_raw_dump (args : Args) (w : World) (code : Z)
  (records : list TraceRecord.t) :
  filtering args = true ->
  run_build (build args) tmpdir = Return code ->
  Forall2 (fun f r => parse open_read f = Return r)
    (trace_files iglob tmpdir) records ->
  open_write (output args) = Return tt ->
  main' args w
  = (code,
     {| stdout := stdout w;
        written := written w ++ [(output args, Records records)] |}).
Proof.
  intros Hflag Hbuild Hparse Hopen. unfold main, collect.
  apply mapM_Forall2 in Hparse.
  rewrite Hbuild, Hflag. simpl. rewrite Hparse. simpl.
  now rewrite Hopen.
Qed.

(** X17: when the build could be started and a trace file cannot be
    parsed, [main] prints the text of the exception of the first such
    file in discovery order, returns 127 and writes nothing, with or
    without [--disable-filter]. *)
Theorem main_reports_first_parse_error (args : Args) (w : World) (code : Z)
  (filename : string) (before after : list string) (e : exn) :
  run_build (build args) tmpdir = Return code ->
  trace_files iglob tmpdir = before ++ filename :: after ->
  (forall f, In f before -> failed (parse open_read f) = false) ->
  parse open_read filename = Raise e ->
  main' args w
  = (127%Z,
     {| stdout := stdout w ++ [str_exn e]; written := written w |}).
Proof.
  intros Hbuild Hfiles Hbefore Hf. unfold main, collect.
  rewrite Hbuild, Hfiles. simpl.
  now rewrite (mapM_first_error _ _ _ _ _ Hbefore Hf).
Qed.

End MainExtras.

Lemma main_raw_dump_witness :
  Example.main Example.files_two
    {| output := "db.json"; filtering := true; build := ["make"] |}
    {| stdout := []; written := [] |}
  = (0%Z,
     {| stdout := [];
        written :=
          [] ++ [("db.json",
                  Records [Example.record_two;
                           TraceRecord.Build "101" "1" "execve" "/home/u"
                             ["/bin/ls"; "-la"]])] |}).
Proof.
  apply (main_raw_dump (Example.lookup Example.files_two)
           (Example.listing Example.files_two) Example.cwd Example.classify
           (fun _ _ => Return 0%Z) Example.scratch (fun _ => Return tt)
           {| output := "db.json"; filtering := true; build := ["make"] |}
           {| stdout := []; written := [] |} 0%Z).
  - reflexivity.
  - reflexivity.
  - repeat constructor.
  - reflexivity.
Defined.

Lemma main_reports_first_parse_error_witness :
  Example.main [("/tmp/bear-x/cmd.1", "truncated")]
    {| output := "db.json"; filtering := false; build := ["make"] |}
    {| stdout := []; written := [] |}
  = (127%Z,
     {| stdout := [] ++ ["list index out of range"]; written := [] |}).
Proof.
  apply (main_reports_first_parse_error
           (Example.lookup [("/tmp/bear-x/cmd.1", "truncated")])
           (Example.listing [("/tmp/bear-x/cmd.1", "truncated")])
           Example.cwd Example.classify
           (fun _ _ => Return 0%Z) Example.scratch (fun _ => Return tt)
           {| output := "db.json"; filtering := false; build := ["make"] |}
           {| stdout := []; written := [] |} 0%Z
           "/tmp/bear-x/cmd.1" [] [] IndexError).
  - reflexivity.
  - reflexivity.
  - intros f [].
  - reflexivity.
Defined.

(** ** More on the entries *)

(** X19: with the collecting process in an absolute working directory,
    the file value of every emitted entry is one or two slashes followed
    by components joined by single slashes, none of which is empty, [.]
    or [..]. *)
Theorem entry_file_components
  (open_read : string -> result string) (iglob : string -> list string)
  (getcwd : string) (commands_parse : list string -> result Atoms)
  (destination : string) (es : list Entry.t) (e : Entry.t) :
  OsPath.isabs getcwd = true ->
  collect open_read iglob getcwd commands_parse true destination
  = Return (Entries es) ->
  In e es ->
  exists k comps,
    (k = 1 \/ k = 2)
    /\ Forall plain comps
    /\ Entry.file e
       = (Py.repeat_char "/" k ++ Py.join "/" comps)%string.
Proof.
  intros Hcwd H Hin.
  destruct (collect_entry_inv _ _ _ _ _ _ _ H Hin)
    as (filename & record & atoms & operand & _ & _ & _ & _ & _ & _ & ->).
  cbn [entry_of Entry.file]. unfold OsPath.abspath.
  apply normpath_abs_shape.
  destruct (OsPath.isabs operand) eqn:Hop; [exact Hop|].
  unfold OsPath.join. unfold OsPath.isabs in Hop. rewrite Hop.
  destruct ((getcwd =? "")%string || Py.endswith_char getcwd OsPath.sep);
    now apply isabs_append.
Qed.

Lemma entry_file_components_witness :
  exists k comps,
    (k = 1 \/ k = 2)
    /\ Forall plain comps
    /\ Entry.file (entry_of Example.cwd Example.record_one "./foo.c")
       = (Py.repeat_char "/" k ++ Py.join "/" comps)%string.
Proof.
  apply (entry_file_components (Example.lookup Example.files_one)
           (Example.listing Example.files_one) Example.cwd Example.classify
           Example.scratch
           [entry_of Example.cwd Example.record_one "foo.c";
            entry_of Example.cwd Example.record_one "./foo.c"]);
    [reflexivity | reflexivity | right; now left].
Defined.

(** X20: the filter test looks at the arguments after the executable only
    as a set: two vectors with the same executable and the same arguments
    in any order and number get the same answer. *)
Theorem is_compiler_call_argument_order (executable : string)
  (args args' : list string) :
  (forall arg, In arg args <-> In arg args') ->
  is_compiler_call (executable :: args)
  = is_compiler_call (executable :: args').
Proof.
  intros Hsame. unfold is_compiler_call.
  rewrite !known_compiler_cons, !cancel_parameter_cons. simpl. do 3 f_equal.
  apply eq_true_iff_eq. rewrite !existsb_exists.
  split; intros (arg & Hin & Hm); exists arg; (split; [|exact Hm]);
    now apply Hsame.
Qed.

Lemma is_compiler_call_argument_order_witness :
  is_compiler_call ["gcc"; "-cc1"; "a.c"]
  = is_compiler_call ["gcc"; "a.c"; "-cc1"; "a.c"].
Proof.
  apply is_compiler_call_argument_order.
  intros arg. simpl. tauto.
Defined.

(** ** The structure of a filtered collection *)

Section ChainStructure.

Context {A B : Type}.

Lemma Forall2_total (R : A -> B -> Prop) (l : list A) :
  (forall a, In a l -> exists b, R a b) -> exists bs, Forall2 R l bs.
Proof.
  induction l as [|a l IH]; intros H; [exists []; constructor|].
  destruct (H a (or_introl eq_refl)) as [b Hb].
  destruct IH as [bs Hbs]; [intros x Hx; apply H; now right|].
  exists (b :: bs). now constructor.
Qed.

(** The outputs of a chain are, in order, the outputs for each input. *)
Lemma flatMapM_Forall2 (f : A -> result (list B)) (l : list A)
  (bs : list B) :
  flatMapM f l = Return bs
  <-> exists bss, Forall2 (fun a xs => f a = Return xs) l bss
                  /\ bs = concat bss.
Proof.
  revert bs. induction l as [|a l IH]; simpl; intros bs.
  - split.
    + intros H. inversion H. exists []. split; [constructor | reflexivity].
    + intros (bss & H & ->). inversion H. reflexivity.
  - split.
    + intros H. destruct (f a) as [xs|] eqn:Ea; [|discriminate].
      simpl in H. destruct (flatMapM f l) as [rest|]; [|discriminate].
      inversion H; subst.
      destruct (proj1 (IH rest) eq_refl) as (bss & Hbss & ->).
      exists (xs :: bss). split; [now constructor | reflexivity].
    + intros (bss & H & ->).
      inversion H as [|? xs ? bss' Hxs Hrest]; subst.
      rewrite Hxs. simpl.
      rewrite (proj2 (IH (concat bss'))); [reflexivity|].
      exists bss'. auto.
Qed.

End ChainStructure.

Section CollectStructure.

Variable open_read : string -> result string.
Variable iglob : string -> list string.
Variable getcwd : string.
Variable commands_parse : list string -> result Atoms.

Local Abbreviation collect' :=
  (collect open_read iglob getcwd commands_parse).
Local Abbreviation step' :=
  (fun record =>
     kept <- general_filter record ;;
     flatMapM (format_record getcwd commands_parse) kept).
Local Abbreviation record_entries' := (record_entries getcwd commands_parse).

(** What the chain yields for a record is what [record_entries] says. *)
Lemma chain_step_entries (record : TraceRecord.t) (xs : list Entry.t) :
  step' record = Return xs -> record_entries' record xs.
Proof.
  unfold general_filter, record_entries. intros H.
  destruct (is_compiler_call (TraceRecord.command record)) as [[|]|];
    simpl in H; try discriminate.
  - right. split; [reflexivity|]. unfold format_record in H.
    destruct (commands_parse (TraceRecord.command record)) as [atoms|];
      [|discriminate].
    simpl in H. inversion H; subst; clear H. exists atoms.
    split; [reflexivity|]. rewrite app_nil_r.
    now destruct (action atoms).
  - left. inversion H. auto.
Qed.

Lemma chain_step_total (record : TraceRecord.t) (atoms : Atoms) :
  TraceRecord.command record <> [] ->
  commands_parse (TraceRecord.command record) = Return atoms ->
  exists xs, step' record = Return xs.
Proof.
  intros Hne Hp.
  destruct (chain_step_bounded getcwd commands_parse record atoms Hne Hp)
    as (xs & Hxs & _).
  eauto.
Qed.

Lemma record_entries_directory (record : TraceRecord.t)
  (xs : list Entry.t) :
  record_entries' record xs ->
  Forall (fun e => Entry.directory e = TraceRecord.directory record) xs.
Proof.
  intros [[_ ->] | (_ & atoms & _ & ->)]; [constructor|].
  destruct (action atoms); try constructor.
  apply Forall_forall. intros e He.
  apply in_map_iff in He as (operand & <- & _). reflexivity.
Qed.

Lemma record_entries_length (record : TraceRecord.t) (xs : list Entry.t)
  (k : nat) :
  record_entries' record xs ->
  (forall atoms,
      commands_parse (TraceRecord.command record) = Return atoms ->
      List.length (files atoms) <= k) ->
  List.length xs <= k.
Proof.
  intros [[_ ->] | (_ & atoms & Hp & ->)] Hk; [simpl; lia|].
  specialize (Hk atoms Hp).
  destruct (action atoms); simpl; try lia. now rewrite length_map.
Qed.

(** A filtered collection that returns is made, in discovery order, of
    what each parsed record yields. *)
Lemma collect_filtered_structure (destination : string)
  (es : list Entry.t) :
  collect' true destination = Return (Entries es)
  <-> exists rs ess,
      Forall2 (fun f r => parse open_read f = Return r)
        (trace_files iglob destination) rs
      /\ Forall2 (fun r xs => step' r = Return xs) rs ess
      /\ es = concat ess.
Proof.
  unfold collect, chain. split.
  - intros H.
    destruct (mapM (parse open_read) (trace_files iglob destination))
      as [rs|] eqn:Hrs; [|discriminate].
    simpl in H.
    destruct (flatMapM step' rs) as [es'|] eqn:Hes; [|discriminate].
    simpl in H. inversion H; subst; clear H.
    apply mapM_Forall2 in Hrs.
    apply flatMapM_Forall2 in Hes as (ess & Hess & ->).
    exists rs, ess. auto.
  - intros (rs & ess & Hrs & Hess & ->).
    apply mapM_Forall2 in Hrs. rewrite Hrs. simpl.
    rewrite (proj2 (flatMapM_Forall2 step' rs (concat ess)));
      [reflexivity|].
    exists ess. auto.
Qed.

Lemma concat_length_bounded {A B : Type} (R : A -> list B -> Prop)
  (l : list A) (bss : list (list B)) :
  Forall2 R l bss ->
  (forall a xs, In a l -> R a xs -> List.length xs <= 1) ->
  List.length (concat bss) <= List.length l.
Proof.
  induction 1 as [|a xs l bss Hxs _ IH]; intros Hk; [simpl; lia|].
  simpl. rewrite length_app.
  pose proof (Hk a xs (or_introl eq_refl) Hxs).
  assert (List.length (concat bss) <= List.length l)
    by (apply IH; intros a' xs' Ha'; apply Hk; now right).
  lia.
Qed.

(** C2 (as amended): when every trace file of the scratch directory
    parses, the unfiltered collection returns exactly one record per
    trace file.  When moreover every argument vector is non-empty and
    the classifier answers, the filtered collection returns, in
    discovery order, for each record the filter test accepts and the
    classifier calls a compilation one entry per source-file operand,
    and nothing for the other records; so it returns at most as many
    entries as there are trace files when no record has more than one
    source-file operand. *)
Theorem collect_counts (destination : string) :
  (forall f, In f (trace_files iglob destination) ->
             failed (parse open_read f) = false) ->
  (exists rs,
      collect' false destination = Return (Records rs)
      /\ List.length rs = List.length (trace_files iglob destination))
  /\ ((forall f r,
         In f (trace_files iglob destination) ->
         parse open_read f = Return r ->
         TraceRecord.command r <> []
         /\ exists atoms,
             commands_parse (TraceRecord.command r) = Return atoms) ->
      exists rs ess,
        Forall2 (fun f r => parse open_read f = Return r)
          (trace_files iglob destination) rs
        /\ Forall2 record_entries' rs ess
        /\ collect' true destination = Return (Entries (concat ess))
        /\ ((forall f r atoms,
               In f (trace_files iglob destination) ->
               parse open_read f = Return r ->
               commands_parse (TraceRecord.command r) = Return atoms ->
               List.length (files atoms) <= 1) ->
            List.length (concat ess)
            <= List.length (trace_files iglob destination))).
Proof.
  intros Hparse.
  destruct (mapM_total _ _ Hparse) as [rs Hrs].
  pose proof (mapM_length _ _ _ Hrs) as Hlen.
  split.
  { exists rs. unfold collect. rewrite Hrs. auto. }
  intros Hcls.
  destruct (Forall2_total (fun r xs => step' r = Return xs) rs)
    as [ess Hess].
  { intros r Hr.
    destruct (mapM_In _ _ _ _ Hrs Hr) as (f & Hf & Hpf).
    destruct (Hcls f r Hf Hpf) as (Hne & atoms & Hp).
    exact (chain_step_total r atoms Hne Hp). }
  exists rs, ess.
  split; [now apply mapM_Forall2|].
  split.
  { eapply Forall2_impl; [|exact Hess].
    intros r xs. apply chain_step_entries. }
  split.
  { apply collect_filtered_structure. exists rs, ess.
    split; [now apply mapM_Forall2 | auto]. }
  intros Hone. rewrite <- Hlen.
  apply (concat_length_bounded _ _ _ Hess).
  intros r xs Hr Hxs.
  destruct (mapM_In _ _ _ _ Hrs Hr) as (f & Hf & Hpf).
  apply (record_entries_length r xs 1 (chain_step_entries r xs Hxs)).
  intros atoms Hp. exact (Hone f r atoms Hf Hpf Hp).
Qed.

(** C9 (as amended): a filtered collection that returns is made, in
    discovery order, of the entries of each trace file, and the directory
    of every entry is, verbatim, the working-directory field (the fourth
    field) of the trace file the entry comes from; so it is an absolute
    path exactly when that recorded string is. *)
Theorem entry_directory_is_recorded (destination : string)
  (es : list Entry.t) :
  collect' true destination = Return (Entries es) ->
  exists rs ess,
    Forall2
      (fun f r =>
         parse open_read f = Return r
         /\ exists content,
             open_read f = Return content
             /\ nth_error (Py.split RS content) 3
                = Some (TraceRecord.directory r))
      (trace_files iglob destination) rs
    /\ Forall2
         (fun r xs =>
            record_entries' r xs
            /\ Forall
                 (fun e =>
                    Entry.directory e = TraceRecord.directory r
                    /\ OsPath.isabs (Entry.directory e)
                       = OsPath.isabs (TraceRecord.directory r))
                 xs)
         rs ess
    /\ es = concat ess.
Proof.
  intros H.
  apply collect_filtered_structure in H as (rs & ess & Hrs & Hess & ->).
  exists rs, ess. split; [|split; [|reflexivity]].
  - eapply Forall2_impl; [|exact Hrs].
    intros f r Hp. split; [exact Hp|]. now apply parse_directory.
  - eapply Forall2_impl; [|exact Hess].
    intros r xs Hxs. apply chain_step_entries in Hxs.
    split; [exact Hxs|].
    pose proof (record_entries_directory r xs Hxs) as Hd.
    eapply Forall_impl; [|exact Hd].
    intros e He. split; [exact He | now rewrite He].
Qed.

End CollectStructure.

Lemma collect_counts_witness :
  (exists rs,
      Example.collect Example.files_two false = Return (Records rs)
      /\ List.length rs = 2)
  /\ (exists rs ess,
        Forall2 (fun f r => parse (Example.lookup Example.files_two) f
                            = Return r)
          ["/tmp/bear-x/cmd.1"; "/tmp/bear-x/cmd.2"] rs
        /\ Forall2 (record_entries Example.cwd Example.classify) rs ess
        /\ Example.collect Example.files_two true
           = Return (Entries (concat ess))
        /\ List.length (concat ess) <= 2).
Proof.
  assert (Hparse : forall f,
             In f (trace_files (Example.listing Example.files_two)
                     Example.scratch) ->
             failed (parse (Example.lookup Example.files_two) f) = false).
  { intros f [<- | [<- | []]]; reflexivity. }
  destruct (collect_counts (Example.lookup Example.files_two)
              (Example.listing Example.files_two) Example.cwd
              Example.classify Example.scratch Hparse) as [Hraw Hfiltered].
  split; [exact Hraw|].
  destruct Hfiltered as (rs & ess & Hrs & Hess & Hc & Hbound).
  { intros f r [<- | [<- | []]] Hr; vm_compute in Hr; inversion Hr; subst;
      (split; [discriminate|]); eexists; reflexivity. }
  exists rs, ess. split; [exact Hrs|]. split; [exact Hess|].
  split; [exact Hc|]. apply Hbound.
  intros f r atoms [<- | [<- | []]] Hr Hp; vm_compute in Hr; inversion Hr;
    subst; vm_compute in Hp; inversion Hp; subst; simpl; lia.
Defined.

Lemma entry_directory_is_recorded_witness :
  exists rs ess,
    Forall2
      (fun f r =>
         parse (Example.lookup Example.files_dirs) f = Return r
         /\ exists content,
             Example.lookup Example.files_dirs f = Return content
             /\ nth_error (Py.split RS content) 3
                = Some (TraceRecord.directory r))
      ["/tmp/bear-x/cmd.1"; "/tmp/bear-x/cmd.2"] rs
    /\ Forall2
         (fun r xs =>
            record_entries Example.cwd Example.classify r xs
            /\ Forall
                 (fun e =>
                    Entry.directory e = TraceRecord.directory r
                    /\ OsPath.isabs (Entry.directory e)
                       = OsPath.isabs (TraceRecord.directory r))
                 xs)
         rs ess
    /\ [Entry.Build "/home/u/a" "cc -c a.c" "/home/u/a.c";
        Entry.Build "/home/u/b" "cc -c b.c" "/home/u/b.c"]
       = concat ess.
Proof.
  apply (entry_directory_is_recorded (Example.lookup Example.files_dirs)
           (Example.listing Example.files_dirs) Example.cwd Example.classify
           Example.scratch).
  reflexivity.
Defined.

(** ** Reading the trace file in text mode *)

Section TextModeParser.

Import TextMode.

Lemma translate_app_sep (b : bool) (x : string) (c : ascii) (y : string) :
  Ascii.eqb c CR = false -> Ascii.eqb c LF = false ->
  translate b (x ++ String c y)
  = (translate b x ++ String c (translate false y))%string.
Proof.
  intros Hcr Hlf. revert b.
  induction x as [|a x IH]; intros b; simpl.
  - now rewrite Hcr, Hlf.
  - destruct (Ascii.eqb a CR); [simpl; now rewrite IH|].
    destruct (Ascii.eqb a LF); [|simpl; now rewrite IH].
    destruct b; simpl; now rewrite IH.
Qed.

(** A text without carriage return is read as it is. *)
Lemma translate_free (s : string) :
  Py.free_of CR s = true -> universal_newlines s = s.
Proof.
  unfold universal_newlines.
  induction s as [|a s IH]; simpl; [reflexivity|]. intros H.
  apply andb_prop in H as [Ha Hs]. apply negb_true_iff in Ha.
  rewrite Ha, (IH Hs). now destruct (Ascii.eqb_spec a LF) as [-> | _].
Qed.

(** The translation brings in line feeds only. *)
Lemma translate_free_of (c : ascii) (b : bool) (s : string) :
  Ascii.eqb LF c = false ->
  Py.free_of c s = true -> Py.free_of c (translate b s) = true.
Proof.
  intros Hlf. revert b.
  induction s as [|a s IH]; intros b; cbn [translate Py.free_of];
    [reflexivity|].
  intros H. apply andb_prop in H as [Ha Hs].
  destruct (Ascii.eqb a CR);
    [cbn [Py.free_of]; rewrite Hlf; now apply IH|].
  destruct (Ascii.eqb a LF).
  - destruct b; cbn [Py.free_of]; [|rewrite Hlf]; now apply IH.
  - cbn [Py.free_of]. rewrite Ha. now apply IH.
Qed.

(** Five fields, read in text mode. *)
Lemma translate_five_fields (raw f0 f1 f2 f3 f4 : string) :
  Py.split RS raw = [f0; f1; f2; f3; f4] ->
  Py.split RS (universal_newlines raw)
  = [universal_newlines f0; universal_newlines f1; universal_newlines f2;
     universal_newlines f3; universal_newlines f4].
Proof.
  intros Hs. pose proof (split_fields_free RS raw) as Hfree.
  pose proof (join_split RS raw) as Hjoin. rewrite Hs in Hfree, Hjoin.
  unfold Py.join in Hjoin. cbn [String.concat] in Hjoin.
  inversion Hfree as [|? ? H0 Hfree1]; subst.
  inversion Hfree1 as [|? ? H1 Hfree2]; subst.
  inversion Hfree2 as [|? ? H2 Hfree3]; subst.
  inversion Hfree3 as [|? ? H3 Hfree4]; subst.
  inversion Hfree4 as [|? ? H4 _]; subst.
  unfold universal_newlines. cbn [append].
  rewrite !translate_app_sep by reflexivity.
  rewrite !split_middle.
  rewrite !split_free by (apply translate_free_of; [reflexivity | assumption]).
  reflexivity.
Qed.

(** C4 (as amended): on a well-formed trace file (five fields, the fifth
    closed by a unit separator), read in text mode, the parser succeeds,
    and joining the parsed argument vector with the unit separator and
    adding one closing unit separator gives the fifth field of the file
    with every carriage return, alone or followed by a line feed, turned
    into a line feed; it gives back the fifth field itself, character
    for character, when that holds no carriage return. *)
Theorem parse_rejoin_roundtrip (open_raw : string -> result string)
  (filename raw f0 f1 f2 f3 f4 : string) :
  open_raw filename = Return raw ->
  Py.split RS raw = [f0; f1; f2; f3; f4] ->
  Py.endswith_char f4 US = true ->
  exists r,
    parse (TextMode.read open_raw) filename = Return r
    /\ rejoin (TraceRecord.command r) = universal_newlines f4
    /\ (Py.free_of CR f4 = true -> rejoin (TraceRecord.command r) = f4).
Proof.
  intros Ho Hs Hend.
  destruct (parse_rejoin_text (TextMode.read open_raw) filename
              (universal_newlines raw)
              (universal_newlines f0) (universal_newlines f1)
              (universal_newlines f2) (universal_newlines f3)
              (universal_newlines f4)) as (r & Hr & Hjoin).
  - unfold TextMode.read. now rewrite Ho.
  - now apply translate_five_fields.
  - destruct (endswith_char_inv _ _ Hend) as [x ->].
    unfold universal_newlines. rewrite translate_app_sep by reflexivity.
    clear. induction (translate false x) as [|a t IH]; [reflexivity|].
    simpl. destruct t; [reflexivity | exact IH].
  - exists r. split; [exact Hr|]. split; [exact Hjoin|].
    intros Hfree. now rewrite Hjoin, translate_free.
Qed.

Lemma translate_terminated_args (args : list string) :
  universal_newlines
    (String.concat "" (map (fun a => (a ++ String US "")%string) args))
  = String.concat ""
      (map (fun a => (a ++ String US "")%string)
         (map universal_newlines args)).
Proof.
  unfold universal_newlines.
  induction args as [|a args IH]; [reflexivity|].
  cbn [map]. destruct args as [|b args'].
  - cbn [map String.concat]. now rewrite translate_app_sep by reflexivity.
  - change (String.concat "" ((a ++ String US "")%string
                              :: map (fun a => (a ++ String US "")%string)
                                   (b :: args')))
      with ((a ++ String US "") ++ ""
            ++ String.concat ""
                 (map (fun a => (a ++ String US "")%string) (b :: args')))%string.
    cbn [append]. rewrite append_assoc. cbn [append].
    rewrite translate_app_sep by reflexivity. rewrite IH.
    cbn [map String.concat append]. symmetry.
    exact (append_assoc _ (String US "") _).
Qed.

(** X6: a trace file made of four fields without record separator, each
    followed by a record separator, and then of arguments without record
    or unit separator, each followed by a unit separator, read in text
    mode, parses to these four fields and these arguments with every
    carriage return, alone or followed by a line feed, turned into a
    line feed; so to exactly these fields and arguments when they hold
    no carriage return. *)
Theorem parse_written_trace (open_raw : string -> result string)
  (filename pid ppid fn cwd : string) (args : list string) :
  Py.free_of RS pid = true -> Py.free_of RS ppid = true ->
  Py.free_of RS fn = true -> Py.free_of RS cwd = true ->
  Forall (fun arg => Py.free_of US arg = true) args ->
  Forall (fun arg => Py.free_of RS arg = true) args ->
  open_raw filename
  = Return (pid ++ String RS (ppid ++ String RS (fn ++ String RS
              (cwd ++ String RS
                 (String.concat ""
                    (map (fun a => (a ++ String US "")%string) args))))))
      %string ->
  parse (TextMode.read open_raw) filename
  = Return (TraceRecord.Build
              (universal_newlines pid) (universal_newlines ppid)
              (universal_newlines fn) (universal_newlines cwd)
              (map universal_newlines args))
  /\ (Forall (fun s => Py.free_of CR s = true)
        (pid :: ppid :: fn :: cwd :: args) ->
      parse (TextMode.read open_raw) filename
      = Return (TraceRecord.Build pid ppid fn cwd args)).
Proof.
  intros Hpid Hppid Hfn Hcwd HU HR Ho.
  assert (Hparse :
            parse (TextMode.read open_raw) filename
            = Return (TraceRecord.Build
                        (universal_newlines pid) (universal_newlines ppid)
                        (universal_newlines fn) (universal_newlines cwd)
                        (map universal_newlines args))).
  { apply parse_written_text;
      try (apply translate_free_of; [reflexivity | assumption]).
    - apply Forall_forall. intros a Ha.
      apply in_map_iff in Ha as (a0 & <- & Ha0).
      rewrite Forall_forall in HU.
      apply translate_free_of; [reflexivity | auto].
    - apply Forall_forall. intros a Ha.
      apply in_map_iff in Ha as (a0 & <- & Ha0).
      rewrite Forall_forall in HR.
      apply translate_free_of; [reflexivity | auto].
    - unfold TextMode.read. rewrite Ho. cbn [bind]. f_equal.
      unfold universal_newlines.
      rewrite !translate_app_sep by reflexivity.
      fold (universal_newlines
              (String.concat ""
                 (map (fun a => (a ++ String US "")%string) args))).
      now rewrite translate_terminated_args. }
  split; [exact Hparse|].
  intros Hcr. rewrite Hparse.
  inversion Hcr as [|? ? C0 Hcr1]; subst.
  inversion Hcr1 as [|? ? C1 Hcr2]; subst.
  inversion Hcr2 as [|? ? C2 Hcr3]; subst.
  inversion Hcr3 as [|? ? C3 Hcr4]; subst.
  rewrite !translate_free by assumption.
  do 2 f_equal. clear - Hcr4.
  induction Hcr4 as [|a args Ha _ IH]; [reflexivity|].
  simpl. now rewrite translate_free, IH.
Qed.

End TextModeParser.

Lemma parse_rejoin_roundtrip_witness :
  exists r,
    parse (TextMode.read (Example.lookup Example.files_two))
      "/tmp/bear-x/cmd.1" = Return r
    /\ rejoin (TraceRecord.command r)
       = TextMode.universal_newlines
           (String.concat ""
              (map (fun a => (a ++ String US "")%string)
                 ["/usr/bin/cc"; "-c"; "foo.c"; "-o"; "foo.o"]))
    /\ (Py.free_of TextMode.CR
          (String.concat ""
             (map (fun a => (a ++ String US "")%string)
                ["/usr/bin/cc"; "-c"; "foo.c"; "-o"; "foo.o"])) = true ->
        rejoin (TraceRecord.command r)
        = String.concat ""
            (map (fun a => (a ++ String US "")%string)
               ["/usr/bin/cc"; "-c"; "foo.c"; "-o"; "foo.o"])).
Proof.
  apply (parse_rejoin_roundtrip (Example.lookup Example.files_two)
           "/tmp/bear-x/cmd.1"
           (Example.trace "100" "1" "execve" "/home/u"
              ["/usr/bin/cc"; "-c"; "foo.c"; "-o"; "foo.o"])
           "100" "1" "execve" "/home/u"); reflexivity.
Defined.

(** A well-formed trace file with a carriage return in an argument: the
    re-joined argument vector holds a line feed in its place and is not
    the fifth field of the file. *)
Lemma parse_rejoin_carriage_return :
  Py.split RS cr_trace
  = ["100"; "1"; "execve"; "/home/u";
     ("cc" ++ String US (cr_argument ++ String US ""))%string]
  /\ Py.endswith_char
       ("cc" ++ String US (cr_argument ++ String US ""))%string US = true
  /\ exists r,
      parse (TextMode.read
               (Example.lookup [("/tmp/bear-x/cmd.1", cr_trace)]))
        "/tmp/bear-x/cmd.1" = Return r
      /\ TraceRecord.command r
         = ["cc"; String "a" (String TextMode.LF "b")]
      /\ rejoin (TraceRecord.command r)
         <> ("cc" ++ String US (cr_argument ++ String US ""))%string.
Proof.
  split; [reflexivity|]. split; [reflexivity|].
  eexists. split; [reflexivity|]. split; [reflexivity|].
  vm_compute. discriminate.
Qed.

Lemma parse_written_trace_witness :
  parse (TextMode.read (Example.lookup [("/tmp/bear-x/cmd.1", cr_trace)]))
    "/tmp/bear-x/cmd.1"
  = Return (TraceRecord.Build "100" "1" "execve" "/home/u"
              ["cc"; String "a" (String TextMode.LF "b")])
  /\ parse (TextMode.read (Example.lookup Example.files_two))
       "/tmp/bear-x/cmd.1"
     = Return Example.record_two.
Proof.
  split.
  - apply (proj1 (parse_written_trace
                    (Example.lookup [("/tmp/bear-x/cmd.1", cr_trace)])
                    "/tmp/bear-x/cmd.1" "100" "1" "execve" "/home/u"
                    ["cc"; cr_argument]
                    eq_refl eq_refl eq_refl eq_refl
                    ltac:(repeat constructor) ltac:(repeat constructor)
                    eq_refl)).
  - apply (proj2 (parse_written_trace
                    (Example.lookup Example.files_two)
                    "/tmp/bear-x/cmd.1" "100" "1" "execve" "/home/u"
                    ["/usr/bin/cc"; "-c"; "foo.c"; "-o"; "foo.o"]
                    eq_refl eq_refl eq_refl eq_refl
                    ltac:(repeat constructor) ltac:(repeat constructor)
                    eq_refl)).
    repeat constructor.
Defined.

(** ** The file value of an entry, resolved *)

Section EntryFileResolved.

Import OsPath.

Lemma join_app (cs os : list string) :
  cs <> [] -> os <> [] ->
  Py.join "/" (cs ++ os)
  = (Py.join "/" cs ++ "/" ++ Py.join "/" os)%string.
Proof.
  unfold Py.join. intros Hcs Hos.
  induction cs as [|c cs IH]; [contradiction|].
  destruct cs as [|c' cs'].
  - destruct os; [contradiction | reflexivity].
  - change (String.concat "/" ((c :: c' :: cs') ++ os))
      with (c ++ "/" ++ String.concat "/" ((c' :: cs') ++ os))%string.
    rewrite IH by discriminate.
    change (String.concat "/" (c :: c' :: cs'))
      with (c ++ "/" ++ String.concat "/" (c' :: cs'))%string.
    now rewrite !append_assoc.
Qed.

Lemma endswith_char_app (x y : string) (c : ascii) :
  y <> "" -> Py.endswith_char (x ++ y) c = Py.endswith_char y c.
Proof.
  intros Hy. induction x as [|a x IH]; [reflexivity|].
  cbn [append Py.endswith_char]. rewrite IH.
  destruct (x ++ y)%string eqn:E; [|reflexivity].
  apply append_nil_inv in E as [_ E]. contradiction.
Qed.

Lemma plain_not_endswith (w : string) :
  plain w -> Py.endswith_char w sep = false.
Proof.
  intros (_ & _ & _ & Hfree).
  destruct (Py.endswith_char w sep) eqn:E; [|reflexivity].
  apply endswith_char_inv in E as [x ->].
  rewrite free_of_app in Hfree. apply andb_prop in Hfree as [_ Hfree].
  discriminate.
Qed.

Lemma join_plain_not_empty (cs : list string) :
  cs <> [] -> Forall plain cs -> Py.join "/" cs <> "".
Proof.
  intros Hcs H. destruct cs as [|c cs]; [contradiction|].
  inversion H as [|? ? (Hc & _) _]; subst.
  unfold Py.join. destruct c as [|a c]; [contradiction|].
  destruct cs; discriminate.
Qed.

Lemma join_plain_not_endswith (cs : list string) :
  cs <> [] -> Forall plain cs ->
  Py.endswith_char (Py.join "/" cs) sep = false.
Proof.
  intros Hcs H. induction cs as [|c cs IH]; [contradiction|].
  inversion H as [|? ? Hc Hrest]; subst.
  destruct cs as [|c' cs'].
  - now apply plain_not_endswith.
  - change (Py.join "/" (c :: c' :: cs'))
      with (c ++ "/" ++ Py.join "/" (c' :: cs'))%string.
    assert (Hne : Py.join "/" (c' :: cs') <> "")
      by (apply join_plain_not_empty; [discriminate | assumption]).
    rewrite endswith_char_app
      by (intros E; apply append_nil_inv in E as [E _]; discriminate).
    rewrite endswith_char_app by exact Hne.
    apply IH; [discriminate | assumption].
Qed.

(** A relative path of plain components, resolved against a working
    directory of plain components, is the working directory followed by
    the path. *)
Lemma abspath_plain (k : nat) (cs os : list string) :
  k = 1 \/ k = 2 -> Forall plain cs -> Forall plain os -> os <> [] ->
  abspath (Py.repeat_char sep k ++ Py.join "/" cs) (Py.join "/" os)
  = (Py.repeat_char sep k ++ Py.join "/" (cs ++ os))%string.
Proof.
  intros Hk Hcs Hos Hne. unfold abspath, isabs, join.
  rewrite (join_plain_start os Hos).
  assert (Hcwd : ((Py.repeat_char sep k ++ Py.join "/" cs)%string =? "")
                 %string = false)
    by (destruct Hk as [-> | ->]; reflexivity).
  rewrite Hcwd. cbn [orb].
  destruct cs as [|c cs'].
  - assert (Hend : Py.endswith_char
                     (Py.repeat_char sep k ++ Py.join "/" []) sep = true)
      by (destruct Hk as [-> | ->]; reflexivity).
    rewrite Hend. change (Py.join "/" []) with "".
    rewrite append_nil_r. cbn [app].
    now apply normpath_fixed.
  - assert (Hend : Py.endswith_char
                     (Py.repeat_char sep k ++ Py.join "/" (c :: cs')) sep
                   = false).
    { rewrite endswith_char_app
        by (apply join_plain_not_empty; [discriminate | assumption]).
      apply join_plain_not_endswith; [discriminate | assumption]. }
    rewrite Hend, append_assoc, <- join_app by (discriminate || assumption).
    apply normpath_fixed; [assumption|].
    apply Forall_app. now split.
Qed.

Variable open_read : string -> result string.
Variable iglob : string -> list string.
Variable getcwd : string.
Variable commands_parse : list string -> result Atoms.

(** C5: with the collecting process in an absolute working directory,
    the file value of every emitted entry is an absolute, normalised
    path: one or two slashes followed by components joined by single
    slashes, none of which is empty, [.] or [..] (so [normpath] leaves it
    unchanged).  It is [abspath] of a source-file operand of the record
    the entry is built from, resolved against the working directory of
    the collecting process and not the directory of the record: a
    relative operand made of plain components gives the components of
    that working directory followed by those of the operand. *)
Theorem entry_file_resolved_against_cwd (destination : string)
  (es : list Entry.t) (e : Entry.t) :
  isabs getcwd = true ->
  collect open_read iglob getcwd commands_parse true destination
  = Return (Entries es) ->
  In e es ->
  isabs (Entry.file e) = true
  /\ normpath (Entry.file e) = Entry.file e
  /\ (exists k comps,
         (k = 1 \/ k = 2)
         /\ Forall plain comps
         /\ Entry.file e
            = (Py.repeat_char sep k ++ Py.join "/" comps)%string)
  /\ exists filename record atoms operand,
      In filename (trace_files iglob destination)
      /\ parse open_read filename = Return record
      /\ commands_parse (TraceRecord.command record) = Return atoms
      /\ In operand (files atoms)
      /\ e = Entry.Build (TraceRecord.directory record)
               (Py.join " " (TraceRecord.command record))
               (Entry.file e)
      /\ Entry.file e = abspath getcwd operand
      /\ (isabs operand = false ->
          Entry.file e = normpath (join getcwd operand))
      /\ (forall k cs os,
            (k = 1 \/ k = 2) -> Forall plain cs -> Forall plain os ->
            os <> [] ->
            getcwd = (Py.repeat_char sep k ++ Py.join "/" cs)%string ->
            operand = Py.join "/" os ->
            Entry.file e
            = (Py.repeat_char sep k ++ Py.join "/" (cs ++ os))%string).
Proof.
  intros Hcwd H Hin.
  destruct (collect_entry_inv _ _ _ _ _ _ _ H Hin)
    as (filename & record & atoms & operand
        & Hf & Hp & _ & Hc & _ & Hop & ->).
  cbn [entry_of Entry.file].
  destruct (abspath_abs_normalized getcwd operand Hcwd) as [Habs Hnorm].
  split; [exact Habs|]. split; [exact Hnorm|]. split.
  { unfold abspath. apply normpath_abs_shape.
    destruct (isabs operand) eqn:Eop; [exact Eop|].
    unfold join. unfold isabs in Eop. rewrite Eop.
    destruct ((getcwd =? "")%string || Py.endswith_char getcwd sep);
      now apply isabs_append. }
  exists filename, record, atoms, operand.
  do 4 (split; [assumption|]).
  split; [reflexivity|]. split; [reflexivity|]. split.
  - intros Hrel. unfold abspath. now rewrite Hrel.
  - intros k cs os Hk Hcs Hos Hne -> ->. now apply abspath_plain.
Qed.

End EntryFileResolved.

Lemma entry_file_resolved_against_cwd_witness :
  OsPath.isabs Example.cwd = true
  /\ TraceRecord.directory Example.record_one = "build"
  /\ exists es e,
      Example.collect Example.files_one true = Return (Entries es)
      /\ In e es
      /\ Entry.file e = "/home/u/foo.c"
      /\ OsPath.isabs (Entry.file e) = true
      /\ OsPath.normpath (Entry.file e) = Entry.file e
      /\ exists k comps,
          (k = 1 \/ k = 2)
          /\ Forall plain comps
          /\ Entry.file e
             = (Py.repeat_char OsPath.sep k ++ Py.join "/" comps)%string.
Proof.
  split; [reflexivity|]. split; [reflexivity|].
  exists [entry_of Example.cwd Example.record_one "foo.c";
          entry_of Example.cwd Example.record_one "./foo.c"],
    (entry_of Example.cwd Example.record_one "./foo.c").
  split; [reflexivity|]. split; [right; now left|].
  split; [reflexivity|].
  destruct (entry_file_resolved_against_cwd
              (Example.lookup Example.files_one)
              (Example.listing Example.files_one) Example.cwd
              Example.classify Example.scratch
              [entry_of Example.cwd Example.record_one "foo.c";
               entry_of Example.cwd Example.record_one "./foo.c"]
              (entry_of Example.cwd Example.record_one "./foo.c")
              eq_refl eq_refl (or_intror (or_introl eq_refl)))
    as (Habs & Hnorm & Hshape & _).
  split; [exact Habs|]. split; [exact Hnorm | exact Hshape].
Defined.
